(** * WebRTC lab client (static/webrtcclient.js): a shallow embedding

    The script keeps four module-level variables ([peerConnection],
    [dataChannel], [room], [socket]), reads and writes four DOM elements and
    drives three external collaborators: the media devices, the socket.io
    transport and the browser's RTCPeerConnection.  Every function of the
    script is embedded as a computation in a state-and-exception monad over
    [State]; a thrown JavaScript exception keeps the mutations done before it.

    Every call that leaves the script (console, DOM writes, socket.io, media
    devices, peer connection, data channel) is recorded, in program order, in
    the [trace] field.  The answers of the browser and of the user are given
    by a [Platform], a record of functions of the trace so far.

    Handlers are [async] in the source; here a handler runs to completion
    before the next event is dispatched (each [await] is resumed at once). *)

From stdpp Require Import base option list gmap sets strings.

Open Scope string_scope.
Open Scope list_scope.

(** ** JavaScript values *)

(** A variable holding an object reference: [let x;] starts [Undefined]. *)
Inductive ref (A : Type) : Type :=
  | Undefined
  | Null
  | Obj (a : A).
Arguments Undefined {A}.
Arguments Null {A}.
Arguments Obj {A} a.

Inductive js_error : Type :=
  | TypeError                      (* property access on null or undefined *)
  | DOMException (name : string).  (* raised or rejected by the browser *)

Definition InvalidStateError : js_error := DOMException "InvalidStateError".

(** An error converted to a string, as in a template literal.  Errors carry
    their name only: the message text a browser adds is not modelled. *)
Definition error_to_string (e : js_error) : string :=
  match e with
  | TypeError => "TypeError"
  | DOMException name => name
  end.

Inductive outcome (A : Type) : Type :=
  | Ok (a : A)
  | Throw (e : js_error).
Arguments Ok {A} a.
Arguments Throw {A} e.

#[global] Instance js_error_eq_dec : EqDecision js_error.
Proof. solve_decision. Defined.
#[global] Instance ref_eq_dec {A} `{EqDecision A} : EqDecision (ref A).
Proof. solve_decision. Defined.

(** ** Objects of the browser *)

Definition track := nat.
Definition channel_id := nat.
Definition sdp := string.        (* session description: an opaque blob *)
Definition candidate := string.  (* ICE candidate: an opaque blob *)

Record MediaStream : Type := { getTracks : list track }.

Inductive ready_state : Type := Connecting | Open | Closing | Closed.

(** An RTCDataChannel object; the two flags say whether the script has set
    its [onopen] and [onmessage] properties. *)
Record RTCDataChannel : Type := {
  label : string;
  readyState : ready_state;
  onopen : bool;
  onmessage : bool
}.

(** The RTCDataChannelEvent the engine passes to [ondatachannel]: the
    interface has one attribute, [channel]. *)
Record RTCDataChannelEvent : Type := { channel : channel_id }.

(** [event.dataChannel]: the interface defines no such attribute, so the
    read gives undefined, whatever channel the event carries. *)
Definition event_dataChannel (e : RTCDataChannelEvent) : ref channel_id :=
  Undefined.

(** An RTCPeerConnection object: the tracks given to [addTrack] and the three
    handler properties the script sets. *)
Record RTCPeerConnection : Type := {
  senders : list track;
  onicecandidate : bool;
  ontrack : bool;
  ondatachannel : bool
}.

(** A socket.io socket: the event names a handler was registered for. *)
Record Socket : Type := { handlers : list string }.

#[global] Instance MediaStream_eq_dec : EqDecision MediaStream.
Proof. solve_decision. Defined.
#[global] Instance ready_state_eq_dec : EqDecision ready_state.
Proof. solve_decision. Defined.
#[global] Instance RTCDataChannel_eq_dec : EqDecision RTCDataChannel.
Proof. solve_decision. Defined.
#[global] Instance RTCPeerConnection_eq_dec : EqDecision RTCPeerConnection.
Proof. solve_decision. Defined.
#[global] Instance Socket_eq_dec : EqDecision Socket.
Proof. solve_decision. Defined.

(** ** Calls that leave the script *)

Inductive payload : Type :=
  | PRoom (r : ref string)
  | PSdp (d : sdp)
  | PCandidate (c : candidate).

Inductive effect : Type :=
  | ConsoleLog (msg : string)
  | ConsoleError (msg : string)
  | GetUserMedia
  | GetDisplayMedia
  | Prompt (msg : string)
  | IoConnect
  | SocketOn (ev : string)
  | Emit (ev : string) (p : payload)
  | NewPeerConnection
  | AddTrack (t : track)
  | CreateDataChannel (lbl : string)
  | CreateOffer
  | CreateAnswer
  | SetLocalDescription (d : sdp)
  | SetRemoteDescription (d : sdp)
  | AddIceCandidate (c : candidate)
  | ClosePeerConnection
  | ChannelSend (ch : channel_id) (msg : string)
  | ChannelClose (ch : channel_id)
  | TrackStop (t : track)
  | SetSrcObject (elem : string) (s : option MediaStream)
  | SetValue (elem : string) (v : string).

#[global] Instance payload_eq_dec : EqDecision payload.
Proof. solve_decision. Defined.
#[global] Instance effect_eq_dec : EqDecision effect.
Proof. solve_decision. Defined.

(** ** The browser and the user

    Each field answers one call, given the trace up to that call.  A promise
    that rejects, or a call that throws, is [Throw]. *)
Record Platform : Type := {
  getUserMedia : list effect -> outcome MediaStream;
  getDisplayMedia : list effect -> outcome MediaStream;
  prompt : list effect -> option string;   (* [None]: the dialog was cancelled *)
  createOffer : list effect -> outcome sdp;
  createAnswer : list effect -> outcome sdp;
  setLocalDescription : list effect -> sdp -> outcome unit;
  setRemoteDescription : list effect -> sdp -> outcome unit
}.

(** ** Program state *)

Record State : Type := {
  (* module-level variables, lines 6-9 *)
  peerConnection : ref RTCPeerConnection;
  dataChannel : ref channel_id;
  room : ref string;
  socket : ref Socket;
  (* DOM *)
  localVideo : option MediaStream;     (* localVideo.srcObject, [None] is null *)
  remoteVideo : option MediaStream;    (* remoteVideo.srcObject *)
  dataChannelInput : string;           (* dataChannelInput.value *)
  dataChannelOutput : string;          (* dataChannelOutput.value *)
  (* objects shared with the browser *)
  channels : gmap channel_id RTCDataChannel;
  ended : gset track;                  (* tracks whose stop() was called *)
  (* calls made so far, oldest first *)
  trace : list effect
}.

Definition initial : State :=
  {| peerConnection := Undefined; dataChannel := Undefined; room := Undefined;
     socket := Undefined; localVideo := None; remoteVideo := None;
     dataChannelInput := ""; dataChannelOutput := "";
     channels := ∅; ended := ∅; trace := [] |}.

Definition set_peerConnection (v : ref RTCPeerConnection) (s : State) : State :=
  {| peerConnection := v; dataChannel := dataChannel s; room := room s;
     socket := socket s; localVideo := localVideo s; remoteVideo := remoteVideo s;
     dataChannelInput := dataChannelInput s; dataChannelOutput := dataChannelOutput s;
     channels := channels s; ended := ended s; trace := trace s |}.

Definition set_dataChannel (v : ref channel_id) (s : State) : State :=
  {| peerConnection := peerConnection s; dataChannel := v; room := room s;
     socket := socket s; localVideo := localVideo s; remoteVideo := remoteVideo s;
     dataChannelInput := dataChannelInput s; dataChannelOutput := dataChannelOutput s;
     channels := channels s; ended := ended s; trace := trace s |}.

Definition set_room (v : ref string) (s : State) : State :=
  {| peerConnection := peerConnection s; dataChannel := dataChannel s; room := v;
     socket := socket s; localVideo := localVideo s; remoteVideo := remoteVideo s;
     dataChannelInput := dataChannelInput s; dataChannelOutput := dataChannelOutput s;
     channels := channels s; ended := ended s; trace := trace s |}.

Definition set_socket (v : ref Socket) (s : State) : State :=
  {| peerConnection := peerConnection s; dataChannel := dataChannel s; room := room s;
     socket := v; localVideo := localVideo s; remoteVideo := remoteVideo s;
     dataChannelInput := dataChannelInput s; dataChannelOutput := dataChannelOutput s;
     channels := channels s; ended := ended s; trace := trace s |}.

Definition set_localVideo (v : option MediaStream) (s : State) : State :=
  {| peerConnection := peerConnection s; dataChannel := dataChannel s; room := room s;
     socket := socket s; localVideo := v; remoteVideo := remoteVideo s;
     dataChannelInput := dataChannelInput s; dataChannelOutput := dataChannelOutput s;
     channels := channels s; ended := ended s; trace := trace s |}.

Definition set_remoteVideo (v : option MediaStream) (s : State) : State :=
  {| peerConnection := peerConnection s; dataChannel := dataChannel s; room := room s;
     socket := socket s; localVideo := localVideo s; remoteVideo := v;
     dataChannelInput := dataChannelInput s; dataChannelOutput := dataChannelOutput s;
     channels := channels s; ended := ended s; trace := trace s |}.

Definition set_dataChannelInput (v : string) (s : State) : State :=
  {| peerConnection := peerConnection s; dataChannel := dataChannel s; room := room s;
     socket := socket s; localVideo := localVideo s; remoteVideo := remoteVideo s;
     dataChannelInput := v; dataChannelOutput := dataChannelOutput s;
     channels := channels s; ended := ended s; trace := trace s |}.

Definition set_dataChannelOutput (v : string) (s : State) : State :=
  {| peerConnection := peerConnection s; dataChannel := dataChannel s; room := room s;
     socket := socket s; localVideo := localVideo s; remoteVideo := remoteVideo s;
     dataChannelInput := dataChannelInput s; dataChannelOutput := v;
     channels := channels s; ended := ended s; trace := trace s |}.

Definition set_channels (v : gmap channel_id RTCDataChannel) (s : State) : State :=
  {| peerConnection := peerConnection s; dataChannel := dataChannel s; room := room s;
     socket := socket s; localVideo := localVideo s; remoteVideo := remoteVideo s;
     dataChannelInput := dataChannelInput s; dataChannelOutput := dataChannelOutput s;
     channels := v; ended := ended s; trace := trace s |}.

Definition set_ended (v : gset track) (s : State) : State :=
  {| peerConnection := peerConnection s; dataChannel := dataChannel s; room := room s;
     socket := socket s; localVideo := localVideo s; remoteVideo := remoteVideo s;
     dataChannelInput := dataChannelInput s; dataChannelOutput := dataChannelOutput s;
     channels := channels s; ended := v; trace := trace s |}.

Definition set_trace (v : list effect) (s : State) : State :=
  {| peerConnection := peerConnection s; dataChannel := dataChannel s; room := room s;
     socket := socket s; localVideo := localVideo s; remoteVideo := remoteVideo s;
     dataChannelInput := dataChannelInput s; dataChannelOutput := dataChannelOutput s;
     channels := channels s; ended := ended s; trace := v |}.

(** ** The monad: state, and exceptions that keep the state *)

Definition M (A : Type) : Type := State -> outcome A * State.

Definition ret {A} (a : A) : M A := fun s => (Ok a, s).

Definition throw {A} (e : js_error) : M A := fun s => (Throw e, s).

Definition bind {A B} (m : M A) (k : A -> M B) : M B :=
  fun s => match m s with
           | (Ok a, s') => k a s'
           | (Throw e, s') => (Throw e, s')
           end.

(** [try { m } catch (e) { h e }] *)
Definition try_catch {A} (m : M A) (h : js_error -> M A) : M A :=
  fun s => match m s with
           | (Ok a, s') => (Ok a, s')
           | (Throw e, s') => h e s'
           end.

#[global] Instance M_ret : MRet M := @ret.
#[global] Instance M_bind : MBind M := fun A B k m => bind m k.

Definition get {A} (f : State -> A) : M A := fun s => (Ok (f s), s).
Definition modify (f : State -> State) : M unit := fun s => (Ok tt, f s).

(** Record one call in the trace. *)
Definition emit_effect (e : effect) : M unit :=
  modify (fun s => set_trace (trace s ++ [e]) s).

(** [x.member] on a variable: a TypeError unless [x] holds an object. *)
Definition deref {A} (r : ref A) : M A :=
  match r with
  | Obj a => ret a
  | _ => throw TypeError
  end.

(** [await p] where the platform settles [p] from the trace so far. *)
Definition await {A} (call : effect) (answer : list effect -> outcome A) : M A :=
  emit_effect call ;;
  t ← get trace;
  match answer t with
  | Ok a => ret a
  | Throw e => throw e
  end.

(** [list.forEach(f)] *)
Fixpoint forEach {A} (l : list A) (f : A -> M unit) : M unit :=
  match l with
  | [] => ret tt
  | x :: l' => f x ;; forEach l' f
  end.

Definition nl : string := String (Ascii.ascii_of_nat 10) "".

(** String concatenation with a variable that may hold null or undefined. *)
Definition ref_to_string (r : ref string) : string :=
  match r with
  | Undefined => "undefined"
  | Null => "null"
  | Obj s => s
  end.

(** [console.log(msg, ...)]: the text is kept, not the objects printed after
    it. *)
Definition console_log (msg : string) : M unit := emit_effect (ConsoleLog msg).
Definition console_error (msg : string) : M unit := emit_effect (ConsoleError msg).

(** [socket.emit(ev, p)] on the module-level [socket] *)
Definition socket_emit (ev : string) (p : payload) : M unit :=
  sk ← get socket;
  _ ← deref sk;
  emit_effect (Emit ev p).

(** ** DOM and data-channel primitives *)

(** [elem.srcObject = v]: anything that is not a stream reads back as null. *)
Definition stream_of_ref (r : ref MediaStream) : option MediaStream :=
  match r with
  | Obj s => Some s
  | _ => None
  end.

Definition set_localVideo_srcObject (v : option MediaStream) : M unit :=
  emit_effect (SetSrcObject "localVideo" v) ;;
  modify (set_localVideo v).

Definition set_remoteVideo_srcObject (v : option MediaStream) : M unit :=
  emit_effect (SetSrcObject "remoteVideo" v) ;;
  modify (set_remoteVideo v).

Definition set_input_value (v : string) : M unit :=
  emit_effect (SetValue "dataChannelInput" v) ;;
  modify (set_dataChannelInput v).

(** [dataChannelOutput.value += v] *)
Definition append_output (v : string) : M unit :=
  old ← get dataChannelOutput;
  emit_effect (SetValue "dataChannelOutput" (old +:+ v)) ;;
  modify (set_dataChannelOutput (old +:+ v)).

(** [track.stop()] *)
Definition track_stop (t : track) : M unit :=
  emit_effect (TrackStop t) ;;
  modify (fun s => set_ended (ended s ∪ {[ t ]}) s).

(** [elem.srcObject.getTracks().forEach(track => track.stop())] *)
Definition stop_tracks (src : option MediaStream) : M unit :=
  match src with
  | Some s => forEach (getTracks s) track_stop
  | None => throw TypeError
  end.

Definition with_onopen (c : RTCDataChannel) : RTCDataChannel :=
  {| label := label c; readyState := readyState c;
     onopen := true; onmessage := onmessage c |}.

Definition with_onmessage (c : RTCDataChannel) : RTCDataChannel :=
  {| label := label c; readyState := readyState c;
     onopen := onopen c; onmessage := true |}.

Definition with_readyState (r : ready_state) (c : RTCDataChannel) : RTCDataChannel :=
  {| label := label c; readyState := r;
     onopen := onopen c; onmessage := onmessage c |}.

(** [dataChannel.prop = ...] on the module-level [dataChannel] *)
Definition update_dataChannel (f : RTCDataChannel -> RTCDataChannel) : M unit :=
  dc ← get dataChannel;
  ch ← deref dc;
  modify (fun s => set_channels (alter f ch (channels s)) s).

(** [dataChannel.send(msg)]: the browser throws InvalidStateError unless the
    channel is open.  [ChannelSend] records a message the channel accepted. *)
Definition channel_send (msg : string) : M unit :=
  dc ← get dataChannel;
  ch ← deref dc;
  chs ← get channels;
  match chs !! ch with
  | Some c =>
      match readyState c with
      | Open => emit_effect (ChannelSend ch msg)
      | _ => throw InvalidStateError
      end
  | None => throw InvalidStateError
  end.

(** [dataChannel.close()] *)
Definition channel_close : M unit :=
  dc ← get dataChannel;
  ch ← deref dc;
  emit_effect (ChannelClose ch) ;;
  modify (fun s => set_channels (alter (with_readyState Closed) ch (channels s)) s).

(** A call [peerConnection.op(...)] on the module-level [peerConnection]
    whose promise is awaited. *)
Definition pc_await {A} (call : effect) (answer : list effect -> outcome A) : M A :=
  pc ← get peerConnection;
  _ ← deref pc;
  await call answer.

(** ** The script *)

Section Script.

Context (P : Platform).

(** lines 37-72 *)
Definition enable_camera : M (ref MediaStream) :=
  console_log "Getting user media with constraints" ;;
  stream ← try_catch
    (s ← await GetUserMedia (getUserMedia P);
     console_log "Got MediaStream:" ;;
     mret (Obj s))
    (fun error =>
       console_error "Error accessing media devices." ;;
       try_catch
         (s ← await GetDisplayMedia (getDisplayMedia P);
          mret (Obj s))
         (fun err =>
            console_error ("Error: " +:+ error_to_string err) ;;
            mret Undefined));
  set_localVideo_srcObject (stream_of_ref stream) ;;
  mret stream.

(** lines 80-85 *)
Definition create_signaling_connection : M Socket :=
  emit_effect IoConnect ;;
  mret {| handlers := [] |}.

(** [socket.on(ev, ...)]; the socket passed to [add_signaling_handlers] is
    the object [call] has just stored in the module-level [socket]. *)
Definition socket_on (ev : string) : M unit :=
  sk ← get socket;
  s ← deref sk;
  emit_effect (SocketOn ev) ;;
  modify (set_socket (Obj {| handlers := handlers s ++ [ev] |})).

(** lines 89-135 *)
Definition add_signaling_handlers : M unit :=
  socket_on "created" ;;
  socket_on "joined" ;;
  socket_on "full" ;;
  socket_on "new_peer" ;;
  socket_on "invite" ;;
  socket_on "ok" ;;
  socket_on "ice_candidate" ;;
  socket_on "bye".

(** [room != ''] with JavaScript's loose comparison: null and undefined are
    different from the empty string. *)
Definition ne_empty (r : ref string) : bool :=
  match r with
  | Obj s => negb (String.eqb s "")
  | _ => true
  end.

Definition ref_of_option (o : option string) : ref string :=
  match o with
  | Some s => Obj s
  | None => Null
  end.

(** lines 139-145 *)
Definition call_room : M unit :=
  emit_effect (Prompt "Enter room name:") ;;
  t ← get trace;
  modify (set_room (ref_of_option (prompt P t))) ;;
  r ← get room;
  if ne_empty r then
    console_log ("Joining room: " +:+ ref_to_string r) ;;
    socket_emit "join" (PRoom r)
  else mret tt.

(** lines 153-166 *)
Definition create_peerconnection (localStream : ref MediaStream) : M RTCPeerConnection :=
  emit_effect NewPeerConnection ;;
  s ← deref localStream;
  forEach (getTracks s) (fun t => emit_effect (AddTrack t)) ;;
  mret {| senders := getTracks s; onicecandidate := false;
          ontrack := false; ondatachannel := false |}.

(** lines 171-184; the argument is the object stored in [peerConnection] *)
Definition add_peerconnection_handlers : M unit :=
  r ← get peerConnection;
  pc ← deref r;
  modify (set_peerConnection
    (Obj {| senders := senders pc; onicecandidate := true;
            ontrack := true; ondatachannel := true |})).

(** lines 17-31 *)
Definition call : M unit :=
  console_log "entry call..." ;;
  localStream ← enable_camera;
  sk ← create_signaling_connection;
  modify (set_socket (Obj sk)) ;;
  add_signaling_handlers ;;
  call_room ;;
  pc ← create_peerconnection localStream;
  modify (set_peerConnection (Obj pc)) ;;
  add_peerconnection_handlers.

(** lines 314-316 *)
Definition handle_datachannel_open : M unit :=
  channel_send "*** Channel is ready ***".

(** lines 330-332 *)
Definition handle_datachannel_message (data : string) : M unit :=
  append_output ("PEER: " +:+ data +:+ nl).

(** lines 276-290 *)
Definition create_datachannel (pc : ref RTCPeerConnection) : M unit :=
  console_log "Creating dataChannel. I am the Caller." ;;
  _ ← deref pc;
  emit_effect (CreateDataChannel "data channel") ;;
  chs ← get channels;
  let ch := fresh (dom chs) in
  modify (set_channels
    (<[ch := {| label := "data channel"; readyState := Connecting;
                onopen := false; onmessage := false |}]> chs)) ;;
  modify (set_dataChannel (Obj ch)) ;;
  update_dataChannel with_onopen ;;
  update_dataChannel with_onmessage.

(** lines 294-309.  Line 298 stores [event.dataChannel], which is undefined,
    so the assignment of [onopen] on line 301 throws a TypeError and the
    channel the event carries gets no handler. *)
Definition handle_remote_datachannel (e : RTCDataChannelEvent) : M unit :=
  console_log "Received remote dataChannel. I am Caller." ;;
  modify (set_dataChannel (event_dataChannel e)) ;;
  update_dataChannel with_onopen ;;
  update_dataChannel with_onmessage.

(** lines 193-203 *)
Definition handle_new_peer (r : string) : M unit :=
  console_log ("Peer has joined room: " +:+ r +:+ ". I am the Caller.") ;;
  pc ← get peerConnection;
  create_datachannel pc ;;
  offer ← pc_await CreateOffer (createOffer P);
  pc_await (SetLocalDescription offer) (fun t => setLocalDescription P t offer) ;;
  socket_emit "invite" (PSdp offer).

(** lines 208-218 *)
Definition handle_invite (offer : sdp) : M unit :=
  console_log "Received Invite offer from Caller: " ;;
  pc_await (SetRemoteDescription offer) (fun t => setRemoteDescription P t offer) ;;
  answer ← pc_await CreateAnswer (createAnswer P);
  pc_await (SetLocalDescription answer) (fun t => setLocalDescription P t answer) ;;
  socket_emit "ok" (PSdp answer).

(** lines 223-228 *)
Definition handle_ok (answer : sdp) : M unit :=
  console_log "Received OK answer from Callee: " ;;
  pc_await (SetRemoteDescription answer) (fun t => setRemoteDescription P t answer).

(** lines 237-247; [c] is [event.candidate], [None] when it is null *)
Definition handle_local_icecandidate (c : option candidate) : M unit :=
  console_log "Received local ICE candidate: " ;;
  match c with
  | Some cand =>
      socket_emit "ice_candidate" (PCandidate cand) ;;
      console_log cand
  | None => console_log "pas de candidat"
  end.

(** lines 251-255; the promise of [addIceCandidate] is not awaited *)
Definition handle_remote_icecandidate (c : candidate) : M unit :=
  console_log "Received remote ICE candidate: " ;;
  pc ← get peerConnection;
  _ ← deref pc;
  emit_effect (AddIceCandidate c).

(** lines 264-268; [streams] is [event.streams] *)
Definition handle_remote_track (streams : list MediaStream) : M unit :=
  console_log "Received remote track: " ;;
  set_remoteVideo_srcObject (head streams).

(** lines 320-327 *)
Definition sendMessage : M unit :=
  message ← get dataChannelInput;
  set_input_value "" ;;
  append_output ("        ME: " +:+ message +:+ nl) ;;
  channel_send message.

(** lines 340-369 *)
Definition hangUp : M unit :=
  console_log "bye Bye" ;;
  r ← get room;
  socket_emit "bye" (PRoom r) ;;
  lv ← get localVideo;
  stop_tracks lv ;;
  rv ← get remoteVideo;
  stop_tracks rv ;;
  set_localVideo_srcObject None ;;
  set_remoteVideo_srcObject None ;;
  pc ← get peerConnection;
  _ ← deref pc;
  emit_effect ClosePeerConnection ;;
  modify (set_peerConnection Null) ;;
  channel_close ;;
  modify (set_dataChannel Null) ;;
  append_output ("*** Channel is closed ***" +:+ nl).

End Script.

(** ** Events and the event loop *)

Inductive event : Type :=
  (* the page: buttons and [window.onbeforeunload] *)
  | ClickCall
  | ClickSend
  | ClickHangUp
  | BeforeUnload
  (* socket.io messages *)
  | SockCreated
  | SockJoined
  | SockFull
  | SockNewPeer (r : string)
  | SockInvite (offer : sdp)
  | SockOk (answer : sdp)
  | SockIceCandidate (c : candidate)
  | SockBye
  (* RTCPeerConnection events *)
  | PcIceCandidate (c : option candidate)
  | PcTrack (streams : list MediaStream)
  | PcDataChannel (lbl : string) (rs : ready_state)
  (* RTCDataChannel events *)
  | ChannelOpened (ch : channel_id)
  | ChannelMessage (ch : channel_id) (data : string)
  | ChannelClosed (ch : channel_id).

(** The handler [h] runs if the current socket has one registered for [ev]. *)
Definition on_socket (ev : string) (h : M unit) : M unit :=
  sk ← get socket;
  match sk with
  | Obj s => if bool_decide (ev ∈ handlers s) then h else mret tt
  | _ => mret tt
  end.

(** The handler [h] runs if the current peer connection has property [prop]
    set. *)
Definition on_pc (prop : RTCPeerConnection -> bool) (h : M unit) : M unit :=
  r ← get peerConnection;
  match r with
  | Obj pc => if prop pc then h else mret tt
  | _ => mret tt
  end.

Definition on_channel (ch : channel_id) (prop : RTCDataChannel -> bool) (h : M unit) : M unit :=
  chs ← get channels;
  match chs !! ch with
  | Some c => if prop c then h else mret tt
  | None => mret tt
  end.

Section Loop.

Context (P : Platform).

Definition step (ev : event) : M unit :=
  match ev with
  | ClickCall => call P
  | ClickSend => sendMessage
  | ClickHangUp => hangUp
  | BeforeUnload => hangUp
  | SockCreated => on_socket "created" (console_log "created")
  | SockJoined => on_socket "joined" (console_log "joined")
  | SockFull => on_socket "full" (console_log "full")
  | SockNewPeer r => on_socket "new_peer" (handle_new_peer P r)
  | SockInvite offer => on_socket "invite" (handle_invite P offer)
  | SockOk answer => on_socket "ok" (handle_ok P answer)
  | SockIceCandidate c => on_socket "ice_candidate" (handle_remote_icecandidate c)
  | SockBye => on_socket "bye" hangUp
  | PcIceCandidate c => on_pc onicecandidate (handle_local_icecandidate c)
  | PcTrack streams => on_pc ontrack (handle_remote_track streams)
  | PcDataChannel lbl rs =>
      on_pc ondatachannel
        (chs ← get channels;
         let ch := fresh (dom chs) in
         modify (set_channels
           (<[ch := {| label := lbl; readyState := rs;
                       onopen := false; onmessage := false |}]> chs)) ;;
         handle_remote_datachannel {| channel := ch |})
  | ChannelOpened ch =>
      modify (fun s => set_channels (alter (with_readyState Open) ch (channels s)) s) ;;
      on_channel ch onopen handle_datachannel_open
  | ChannelMessage ch data => on_channel ch onmessage (handle_datachannel_message data)
  | ChannelClosed ch =>
      modify (fun s => set_channels (alter (with_readyState Closed) ch (channels s)) s)
  end.

(** An exception that escapes a handler is reported by the browser and the
    loop goes on with the state the handler left. *)
Fixpoint run (evs : list event) (s : State) : State :=
  match evs with
  | [] => s
  | ev :: evs' => run evs' (snd (step ev s))
  end.

End Loop.

(** The calls made by [m] from state [s]. *)
Definition effects_of {A} (m : M A) (s : State) : list effect :=
  drop (length (trace s)) (trace (snd (m s))).

(** The resources a session owns: stopped tracks, the two video sinks, the
    negotiation handle and the data-channel handle. *)
Definition resources (s : State)
  : gset track * option MediaStream * option MediaStream
    * ref RTCPeerConnection * ref channel_id :=
  (ended s, localVideo s, remoteVideo s, peerConnection s, dataChannel s).

(** ** A concrete browser, for the examples *)

Definition camera : MediaStream := {| getTracks := [0; 1] |}.
Definition screen : MediaStream := {| getTracks := [2] |}.
Definition remote_stream : MediaStream := {| getTracks := [10; 11] |}.

(** Camera available, the user types [name], every negotiation call
    succeeds. *)
Definition browser (name : option string) : Platform :=
  {| getUserMedia := fun _ => Ok camera;
     getDisplayMedia := fun _ => Ok screen;
     prompt := fun _ => name;
     createOffer := fun _ => Ok "offer";
     createAnswer := fun _ => Ok "answer";
     setLocalDescription := fun _ _ => Ok tt;
     setRemoteDescription := fun _ _ => Ok tt |}.

(** No camera and screen sharing refused. *)
Definition browser_no_media (name : option string) : Platform :=
  {| getUserMedia := fun _ => Throw (DOMException "NotFoundError");
     getDisplayMedia := fun _ => Throw (DOMException "NotAllowedError");
     prompt := fun _ => name;
     createOffer := fun _ => Ok "offer";
     createAnswer := fun _ => Ok "answer";
     setLocalDescription := fun _ _ => Ok tt;
     setRemoteDescription := fun _ _ => Ok tt |}.

(** The socket once [add_signaling_handlers] has run. *)
Definition wired_socket : Socket :=
  {| handlers := ["created"; "joined"; "full"; "new_peer"; "invite"; "ok";
                  "ice_candidate"; "bye"] |}.

(** The Caller once the call is established: it called, the peer joined, the
    answer and the remote track arrived and the channel opened. *)
Definition caller_connected : State :=
  run (browser (Some "X"))
    [ClickCall; SockCreated; SockNewPeer "X"; SockOk "answer";
     PcTrack [remote_stream]; ChannelOpened 0]
    initial.

(** The Caller with "hello" typed in the input field: first while the offer
    is out and the channel is still connecting, then once the channel has
    opened. *)
Definition caller_typing_hello : State :=
  set_dataChannelInput "hello"
    (run (browser (Some "X")) [ClickCall; SockCreated; SockNewPeer "X"] initial).

Definition caller_open_hello : State :=
  run (browser (Some "X")) [SockOk "answer"; ChannelOpened 0] caller_typing_hello.

(** The page after a call for which neither camera nor screen could be
    obtained: the socket is connected with its handlers, the room is joined,
    and [peerConnection] was never assigned. *)
Definition call_without_media : State :=
  run (browser_no_media (Some "X")) [ClickCall] initial.

(** The Callee once the call is established: it called, was told it joined,
    received the offer and the remote track; the engine announced the
    Caller's data channel (channel 0 of the Callee's engine) and opened it. *)
Definition callee_connected : State :=
  run (browser (Some "X"))
    [ClickCall; SockJoined; SockInvite "offer"; PcTrack [remote_stream];
     PcDataChannel "data channel" Connecting; ChannelOpened 0]
    initial.

(** The Caller after its offer went out, and before any answer. *)
Definition caller_offer_sent : State :=
  run (browser (Some "X")) [ClickCall; SockCreated; SockNewPeer "X"] initial.

(** ** What is observed of a run *)

(** The channel [dataChannel] refers to, when it is open. *)
Definition open_channel (s : State) : option channel_id :=
  match dataChannel s with
  | Obj ch =>
      match channels s !! ch with
      | Some c => match readyState c with Open => Some ch | _ => None end
      | None => None
      end
  | _ => None
  end.

(** What [sendMessage] writes to the page before it touches the channel. *)
Definition ui_writes (s : State) : list effect :=
  [SetValue "dataChannelInput" "";
   SetValue "dataChannelOutput"
     (dataChannelOutput s +:+ "        ME: " +:+ dataChannelInput s +:+ nl)].

(** The module-level variables. *)
Definition globals (s : State)
  : ref RTCPeerConnection * ref channel_id * ref string * ref Socket :=
  (peerConnection s, dataChannel s, room s, socket s).

(** What [handle_new_peer] does up to the request for an offer, and what it
    does in all when the engine resolves with [offer]. *)
Definition caller_opening (r : string) : list effect :=
  [ConsoleLog ("Peer has joined room: " +:+ r +:+ ". I am the Caller.");
   ConsoleLog "Creating dataChannel. I am the Caller.";
   CreateDataChannel "data channel";
   CreateOffer].

Definition caller_steps (r : string) (offer : sdp) : list effect :=
  caller_opening r ++ [SetLocalDescription offer; Emit "invite" (PSdp offer)].

Definition camera_attempt : list effect :=
  [ConsoleLog "Getting user media with constraints"; GetUserMedia].

Definition screen_attempt : list effect :=
  camera_attempt ++ [ConsoleError "Error accessing media devices."; GetDisplayMedia].

Definition registrations : list effect :=
  [IoConnect; SocketOn "created"; SocketOn "joined"; SocketOn "full";
   SocketOn "new_peer"; SocketOn "invite"; SocketOn "ok";
   SocketOn "ice_candidate"; SocketOn "bye"].

(** What [call_room] does after the prompt returned [r]. *)
Definition join_request (r : ref string) : list effect :=
  if ne_empty r
  then [ConsoleLog ("Joining room: " +:+ ref_to_string r); Emit "join" (PRoom r)]
  else [].

(** What [call] has done, when both media requests were refused, the
    second one with the error [e], by the time it shows the prompt. *)
Definition start_without_media (e : js_error) : list effect :=
  [ConsoleLog "entry call..."] ++ screen_attempt
    ++ [ConsoleError ("Error: " +:+ error_to_string e);
        SetSrcObject "localVideo" None]
    ++ registrations ++ [Prompt "Enter room name:"].

(** What [call] has done, when the camera gave the stream [s], by the time
    it shows the prompt. *)
Definition start_with_camera (s : MediaStream) : list effect :=
  [ConsoleLog "entry call..."] ++ camera_attempt
    ++ [ConsoleLog "Got MediaStream:"; SetSrcObject "localVideo" (Some s)]
    ++ registrations ++ [Prompt "Enter room name:"].

(** [emits Q m]: from any state, [m] appends calls to the trace, and every
    call it appends satisfies [Q]. *)
Definition emits {A} (Q : effect -> Prop) (m : M A) : Prop :=
  forall s, exists l, trace (snd (m s)) = trace s ++ l /\ Forall Q l.

(** ** Invariants and observations for the whole script *)

(** [preserves I m]: running [m] from a state where [I] holds leaves a state
    where [I] holds, whether [m] returns or throws. *)
Definition preserves {A} (I : State -> Prop) (m : M A) : Prop :=
  forall s, I s -> I (snd (m s)).

(** The three events whose handler is [hangUp]. *)
Definition is_teardown (ev : event) : bool :=
  match ev with
  | ClickHangUp | BeforeUnload | SockBye => true
  | _ => false
  end.

(** Which event's handler may make which call. *)
Definition allowed (ev : event) (e : effect) : bool :=
  match e with
  | ConsoleLog _ | ConsoleError _ => true
  | GetUserMedia | GetDisplayMedia | Prompt _ | IoConnect | SocketOn _
  | NewPeerConnection | AddTrack _ =>
      match ev with ClickCall => true | _ => false end
  | Emit name _ =>
      match ev with
      | ClickCall => String.eqb name "join"
      | SockNewPeer _ => String.eqb name "invite"
      | SockInvite _ => String.eqb name "ok"
      | PcIceCandidate _ => String.eqb name "ice_candidate"
      | ClickHangUp | BeforeUnload | SockBye => String.eqb name "bye"
      | _ => false
      end
  | CreateDataChannel _ | CreateOffer =>
      match ev with SockNewPeer _ => true | _ => false end
  | CreateAnswer =>
      match ev with SockInvite _ => true | _ => false end
  | SetLocalDescription _ =>
      match ev with SockNewPeer _ | SockInvite _ => true | _ => false end
  | SetRemoteDescription _ =>
      match ev with SockInvite _ | SockOk _ => true | _ => false end
  | AddIceCandidate _ =>
      match ev with SockIceCandidate _ => true | _ => false end
  | ClosePeerConnection | ChannelClose _ | TrackStop _ => is_teardown ev
  | ChannelSend _ _ =>
      match ev with ClickSend | ChannelOpened _ => true | _ => false end
  | SetSrcObject _ _ =>
      match ev with ClickCall | PcTrack _ => true | _ => is_teardown ev end
  | SetValue _ _ =>
      match ev with ClickSend | ChannelMessage _ _ => true | _ => is_teardown ev end
  end.

(** The transcript lines for a sequence of messages from the peer. *)
Fixpoint transcript_of (msgs : list string) : string :=
  match msgs with
  | [] => ""
  | data :: msgs' => ("PEER: " +:+ data +:+ nl) +:+ transcript_of msgs'
  end.

(** What [handle_invite] does in all when the engine resolves with
    [answer]. *)
Definition callee_steps (offer answer : sdp) : list effect :=
  [ConsoleLog "Received Invite offer from Caller: ";
   SetRemoteDescription offer; CreateAnswer;
   SetLocalDescription answer; Emit "ok" (PSdp answer)].

(** What a complete [hangUp] does, on local stream [ls], remote stream [rs]
    and channel [ch], when the transcript was [out]. *)
Definition teardown_steps (r : ref string) (ls rs : MediaStream)
    (ch : channel_id) (out : string) : list effect :=
  [ConsoleLog "bye Bye"; Emit "bye" (PRoom r)]
    ++ map TrackStop (getTracks ls) ++ map TrackStop (getTracks rs)
    ++ [SetSrcObject "localVideo" None; SetSrcObject "remoteVideo" None;
        ClosePeerConnection; ChannelClose ch;
        SetValue "dataChannelOutput" (out +:+ "*** Channel is closed ***" +:+ nl)].


(** The socket, once created, has the eight handlers; a peer connection held
    by [peerConnection] has its three handlers, and then the socket exists. *)
Definition wired (s : State) : Prop :=
  (socket s = Undefined \/ socket s = Obj wired_socket)
  /\ forall pc, peerConnection s = Obj pc ->
       socket s = Obj wired_socket
       /\ onicecandidate pc = true /\ ontrack pc = true /\ ondatachannel pc = true.

(** No camera, but the user accepts to share the screen. *)
Definition browser_screen_only (name : option string) : Platform :=
  {| getUserMedia := fun _ => Throw (DOMException "NotFoundError");
     getDisplayMedia := fun _ => Ok screen;
     prompt := fun _ => name;
     createOffer := fun _ => Ok "offer";
     createAnswer := fun _ => Ok "answer";
     setLocalDescription := fun _ _ => Ok tt;
     setRemoteDescription := fun _ _ => Ok tt |}.

(** The Caller alone in the room: it called and nobody joined. *)
Definition caller_waiting : State :=
  run (browser (Some "X")) [ClickCall; SockCreated] initial.

(** Whether [hangUp] finds everything it dereferences: the socket, a stream
    on each video sink, the connection and the channel. *)
Definition teardown_ready (s : State) : bool :=
  match socket s, localVideo s, remoteVideo s, peerConnection s, dataChannel s with
  | Obj _, Some _, Some _, Obj _, Obj _ => true
  | _, _, _, _, _ => false
  end.

(** The Callee that has the remote track but was not yet given the Caller's
    data channel. *)
Definition callee_without_channel : State :=
  run (browser (Some "X"))
    [ClickCall; SockJoined; SockInvite "offer"; PcTrack [remote_stream]] initial.

(** * Properties *)

(** ** Every computation only appends to the trace *)

Section Emits.

Context (Q : effect -> Prop).

Lemma emits_ret {A} (a : A) : emits Q (mret a).
Proof. intros s. exists []. simpl. by rewrite app_nil_r. Qed.

Lemma emits_throw {A} (e : js_error) : emits Q (@throw A e).
Proof. intros s. exists []. simpl. by rewrite app_nil_r. Qed.

Lemma emits_get {A} (f : State -> A) : emits Q (get f).
Proof. intros s. exists []. simpl. by rewrite app_nil_r. Qed.

Lemma emits_modify (f : State -> State) :
  (forall s, trace (f s) = trace s) -> emits Q (modify f).
Proof. intros Hf s. exists []. simpl. by rewrite Hf, app_nil_r. Qed.

Lemma emits_emit_effect (e : effect) : Q e -> emits Q (emit_effect e).
Proof. intros He s. exists [e]. simpl. auto. Qed.

Lemma emits_bind {A B} (m : M A) (k : A -> M B) :
  emits Q m -> (forall a, emits Q (k a)) -> emits Q (m ≫= k).
Proof.
  intros Hm Hk s. unfold mbind, M_bind, bind.
  destruct (Hm s) as (l1 & E1 & F1).
  destruct (m s) as [[a|e] s1]; simpl in *.
  - destruct (Hk a s1) as (l2 & E2 & F2).
    exists (l1 ++ l2). rewrite E2, E1, app_assoc. split; [done|].
    by apply Forall_app.
  - by exists l1.
Qed.

Lemma emits_try_catch {A} (m : M A) (h : js_error -> M A) :
  emits Q m -> (forall e, emits Q (h e)) -> emits Q (try_catch m h).
Proof.
  intros Hm Hh s. unfold try_catch.
  destruct (Hm s) as (l1 & E1 & F1).
  destruct (m s) as [[a|e] s1]; simpl in *.
  - by exists l1.
  - destruct (Hh e s1) as (l2 & E2 & F2).
    exists (l1 ++ l2). rewrite E2, E1, app_assoc. split; [done|].
    by apply Forall_app.
Qed.

Lemma emits_deref {A} (r : ref A) : emits Q (deref r).
Proof. destruct r; [apply emits_throw | apply emits_throw | apply emits_ret]. Qed.

Lemma emits_forEach {A} (l : list A) (f : A -> M unit) :
  (forall x, emits Q (f x)) -> emits Q (forEach l f).
Proof.
  intros Hf. induction l as [|x l IH]; simpl.
  - apply emits_ret.
  - apply emits_bind; [apply Hf | intros _; apply IH].
Qed.

Lemma emits_await {A} (c : effect) (answer : list effect -> outcome A) :
  Q c -> emits Q (await c answer).
Proof.
  intros Hc. unfold await.
  apply emits_bind; [by apply emits_emit_effect | intros _].
  apply emits_bind; [apply emits_get | intros t].
  destruct (answer t); [apply emits_ret | apply emits_throw].
Qed.

End Emits.

(** Breaks a computation of the script into its primitives. *)
Ltac emits_step :=
  match goal with
  | |- emits _ (_ ≫= _) => apply emits_bind
  | |- emits _ (try_catch _ _) => apply emits_try_catch
  | |- emits _ (forEach _ _) => apply emits_forEach
  | |- emits _ (modify _) => apply emits_modify; intros []; reflexivity
  | |- emits _ (mret _) => apply emits_ret
  | |- emits _ (throw _) => apply emits_throw
  | |- emits _ (get _) => apply emits_get
  | |- emits _ (deref _) => apply emits_deref
  | |- emits _ (emit_effect _) => apply emits_emit_effect
  | |- emits _ (await _ _) => apply emits_await
  | |- emits _ (match ?x with _ => _ end) => destruct x eqn:?
  | |- forall _, _ => intro
  end.

Ltac emits_unfold :=
  unfold step, on_socket, on_pc, on_channel, call, hangUp, sendMessage,
    enable_camera, create_signaling_connection, add_signaling_handlers,
    socket_on, call_room, create_peerconnection, add_peerconnection_handlers,
    handle_datachannel_open, handle_datachannel_message, create_datachannel,
    handle_remote_datachannel, handle_new_peer, handle_invite, handle_ok,
    handle_local_icecandidate, handle_remote_icecandidate, handle_remote_track,
    pc_await, channel_send, channel_close, update_dataChannel, stop_tracks,
    track_stop, append_output, set_input_value, set_localVideo_srcObject,
    set_remoteVideo_srcObject, socket_emit, console_log, console_error.

Ltac solve_emits := repeat (first [emits_step | progress emits_unfold]).

(** No handler other than the one for a remote candidate [c] ever passes [c]
    to [addIceCandidate]. *)
Lemma step_emits_no_candidate (P : Platform) (c : candidate) (ev : event) :
  ev <> SockIceCandidate c ->
  emits (fun e => e <> AddIceCandidate c) (step P ev).
Proof.
  intros Hev. destruct ev; solve_emits; try done.
  intros [= ->]. by apply Hev.
Qed.

(** Over a whole run, the calls made are those of the steps, in order. *)
Lemma run_emits (P : Platform) (Q : effect -> Prop) (evs : list event) (s : State) :
  Forall (fun ev => emits Q (step P ev)) evs ->
  exists l, trace (run P evs s) = trace s ++ l /\ Forall Q l.
Proof.
  intros H. revert s. induction H as [|ev evs Hev _ IH]; intros s; simpl.
  - exists []. by rewrite app_nil_r.
  - destruct (Hev s) as (l1 & E1 & F1).
    destruct (IH (snd (step P ev s))) as (l2 & E2 & F2).
    exists (l1 ++ l2). rewrite E2, E1, app_assoc. split; [done|].
    by apply Forall_app.
Qed.

(** Symbolic execution of a computation on a state. *)
Ltac exec :=
  repeat (first [progress emits_unfold
                | progress unfold await, mbind, M_bind, mret, M_ret, bind, ret,
                    get, modify, throw, deref, emit_effect, try_catch
                | progress simpl]).

(** The same, with the trace kept as one list appended to the initial one. *)
Ltac exec_trace :=
  repeat (first [progress exec
                | progress unfold set_trace
                | rewrite <- app_assoc
                | rewrite drop_app_length]).

(** Puts every state in the goal in the form of an explicit record. *)
Ltac records :=
  cbv [fst snd set_peerConnection set_dataChannel set_room set_socket set_localVideo
       set_remoteVideo set_dataChannelInput set_dataChannelOutput set_channels
       set_ended set_trace
       peerConnection dataChannel room socket localVideo remoteVideo
       dataChannelInput dataChannelOutput channels ended trace].

Ltac trace_norm := rewrite <- ?app_assoc; cbn [app]; rewrite ?drop_app_length.

(** Execution that leaves maps, sets and strings alone. *)
Ltac exec_light :=
  repeat (progress
    (unfold pc_await, await, socket_emit, console_log, update_dataChannel,
       mbind, M_bind, bind, get, modify, emit_effect, deref, throw, mret,
       M_ret, ret;
     cbn [fst snd trace channels dataChannel peerConnection room socket
          localVideo remoteVideo dataChannelInput dataChannelOutput ended
          set_trace set_channels set_dataChannel set_room set_socket
          set_peerConnection set_localVideo set_remoteVideo
          set_dataChannelInput set_dataChannelOutput set_ended])).

(** ** C7: local candidates *)

(** C7. A local candidate event with a non-null candidate is forwarded at
    once as an 'ice_candidate' message carrying that candidate, whatever the
    state of the negotiation; a local candidate event whose candidate is null
    only writes to the console and forwards nothing. *)
Theorem local_candidate_forwarding :
  (forall (st : State) (sk : Socket) (c : candidate),
     socket st = Obj sk ->
     handle_local_icecandidate (Some c) st =
       (Ok tt,
        set_trace (trace st ++ [ConsoleLog "Received local ICE candidate: ";
                                Emit "ice_candidate" (PCandidate c);
                                ConsoleLog c]) st))
  /\ (forall st : State,
        handle_local_icecandidate None st =
          (Ok tt,
           set_trace (trace st ++ [ConsoleLog "Received local ICE candidate: ";
                                   ConsoleLog "pas de candidat"]) st)).
Proof.
  split.
  - intros st sk c Hsk. destruct st; simpl in *; subst. exec.
    unfold set_trace; simpl. by rewrite <- !app_assoc.
  - intros st. destruct st. exec.
    unfold set_trace; simpl. by rewrite <- !app_assoc.
Qed.

Lemma local_candidate_forwarding_witness :
  socket caller_connected = Obj wired_socket
  /\ handle_local_icecandidate (Some "candidate:1") caller_connected =
       (Ok tt,
        set_trace (trace caller_connected ++
                     [ConsoleLog "Received local ICE candidate: ";
                      Emit "ice_candidate" (PCandidate "candidate:1");
                      ConsoleLog "candidate:1"]) caller_connected).
Proof.
  split; [reflexivity|].
  apply (proj1 local_candidate_forwarding caller_connected wired_socket "candidate:1").
  reflexivity.
Defined.

(** ** C10 and C4: sending on the data channel *)

(** [sendMessage] is the two page updates followed by the send on the state
    they leave. *)
Lemma sendMessage_unfold (st : State) :
  sendMessage st =
    channel_send (dataChannelInput st)
      (set_dataChannelOutput
         (dataChannelOutput st +:+ "        ME: " +:+ dataChannelInput st +:+ nl)
         (set_dataChannelInput ""
            (set_trace (trace st ++ ui_writes st) st))).
Proof.
  destruct st. unfold sendMessage, set_input_value, append_output, ui_writes.
  unfold mbind, M_bind, bind, get, modify, emit_effect; simpl.
  unfold set_dataChannelOutput, set_dataChannelInput, set_trace; simpl.
  by rewrite <- !app_assoc.
Qed.

(** [channel_send] changes nothing but the trace, where it appends the
    accepted message, if any. *)
Lemma channel_send_spec (msg : string) (s : State) :
  channel_send msg s =
    match open_channel s with
    | Some ch => (Ok tt, set_trace (trace s ++ [ChannelSend ch msg]) s)
    | None =>
        (Throw (match dataChannel s with
                | Obj _ => InvalidStateError
                | _ => TypeError
                end), s)
    end.
Proof.
  destruct s as [pc dc rm sk lv rv inp out chs en tr].
  unfold channel_send, open_channel; simpl.
  unfold mbind, M_bind, bind, get; simpl.
  destruct dc as [| |ch]; simpl; try reflexivity.
  destruct (chs !! ch) as [c|]; simpl; try reflexivity.
  destruct (readyState c); reflexivity.
Qed.

(** C10. Whatever the outcome of the send, [sendMessage] first clears the
    input field and appends the message, prefixed with ME:, to the
    transcript; the send on the channel comes after these two writes, and
    when it throws the two writes stay. *)
Theorem sendMessage_not_atomic (st : State) :
  let st' := snd (sendMessage st) in
  dataChannelInput st' = ""
  /\ dataChannelOutput st'
     = dataChannelOutput st +:+ "        ME: " +:+ dataChannelInput st +:+ nl
  /\ exists rest,
       trace st' = trace st ++ ui_writes st ++ rest
       /\ match fst (sendMessage st) with
          | Ok _ => exists ch, rest = [ChannelSend ch (dataChannelInput st)]
          | Throw _ => rest = []
          end.
Proof.
  simpl. rewrite sendMessage_unfold, channel_send_spec.
  destruct (open_channel _) as [ch|]; simpl.
  - repeat split. exists [ChannelSend ch (dataChannelInput st)].
    split; [by rewrite <- app_assoc | by exists ch].
  - repeat split. by exists [].
Qed.

(** On the page as it is before any call, clicking Send throws, and the
    message is already on the transcript. *)
Example sendMessage_fails_after_ui :
  let st := set_dataChannelInput "hello" initial in
  fst (sendMessage st) = Throw TypeError
  /\ dataChannelInput (snd (sendMessage st)) = ""
  /\ dataChannelOutput (snd (sendMessage st)) = "        ME: hello" +:+ nl.
Proof. vm_compute. done. Qed.

(** The sending side.  Outside the open window the send fails: with a
    TypeError when [dataChannel] holds no channel (before one is created, and
    after [hangUp] has set it to null), with the channel's InvalidStateError
    when it holds one that is not open; nothing is handed to the channel.
    When the channel is open the send succeeds and the payload is handed to
    the channel. *)
Lemma sendMessage_sender_side :
  (forall st : State,
     open_channel st = None ->
     fst (sendMessage st)
       = Throw (match dataChannel st with
                | Obj _ => InvalidStateError
                | _ => TypeError
                end)
     /\ effects_of sendMessage st = ui_writes st)
  /\ (forall (st : State) (ch : channel_id),
        open_channel st = Some ch ->
        fst (sendMessage st) = Ok tt
        /\ effects_of sendMessage st
           = ui_writes st ++ [ChannelSend ch (dataChannelInput st)]).
Proof.
  split.
  - intros st Hopen. unfold effects_of.
    rewrite sendMessage_unfold, channel_send_spec.
    unfold open_channel in *; simpl. rewrite Hopen; simpl.
    split; [done|]. by rewrite drop_app_length.
  - intros st ch Hopen. unfold effects_of.
    rewrite sendMessage_unfold, channel_send_spec.
    unfold open_channel in *; simpl. rewrite Hopen; simpl.
    split; [done|]. by rewrite <- app_assoc, drop_app_length.
Qed.

(** On the Caller: the send throws while the channel is connecting and
    succeeds once it is open. *)
Example sendMessage_on_the_caller :
  (open_channel caller_typing_hello = None
   /\ fst (sendMessage caller_typing_hello) = Throw InvalidStateError)
  /\ (open_channel caller_open_hello = Some 0
      /\ fst (sendMessage caller_open_hello) = Ok tt
      /\ effects_of sendMessage caller_open_hello
         = ui_writes caller_open_hello ++ [ChannelSend 0 "hello"]).
Proof. repeat split; vm_compute; reflexivity. Qed.

(** The Callee path up to the answer. *)
Example callee_answers_offer :
  effects_of (step (browser (Some "X")) (SockInvite "offer"))
    (run (browser (Some "X")) [ClickCall; SockJoined] initial)
  = [ConsoleLog "Received Invite offer from Caller: ";
     SetRemoteDescription "offer"; CreateAnswer;
     SetLocalDescription "answer"; Emit "ok" (PSdp "answer")].
Proof. vm_compute. reflexivity. Qed.

(** Whatever channel the engine announces and whatever the state, the
    handler of the datachannel event stores undefined in [dataChannel] and
    throws; the store of channels is not touched, so the announced channel
    keeps no handler. *)
Lemma handle_remote_datachannel_throws (e : RTCDataChannelEvent) (st : State) :
  handle_remote_datachannel e st
  = (Throw TypeError,
     set_dataChannel Undefined
       (set_trace
          (trace st ++ [ConsoleLog "Received remote dataChannel. I am Caller."])
          st)).
Proof. destruct st. reflexivity. Qed.

(** C4. The claim fails on the code at the other end of the channel.  When
    the engine announces the Caller's channel to the Callee, the handler
    reads [event.dataChannel], which is undefined, and throws a TypeError:
    [dataChannel] holds nothing and the announced channel has no message
    handler.  So, with the channel open on both engines and "hello" accepted
    by the Caller's channel, the message event on the Callee leaves the
    Callee's transcript as it was; and the Callee's own Send throws a
    TypeError although the channel is open. *)
Theorem hello_is_lost_on_the_callee :
  let P := browser (Some "X") in
  fst (step P (PcDataChannel "data channel" Connecting) callee_without_channel)
    = Throw TypeError
  /\ dataChannel callee_connected = Undefined
  /\ channels callee_connected !! 0
     = Some {| label := "data channel"; readyState := Open;
               onopen := false; onmessage := false |}
  /\ (fst (sendMessage caller_open_hello) = Ok tt
      /\ effects_of sendMessage caller_open_hello
         = ui_writes caller_open_hello ++ [ChannelSend 0 "hello"])
  /\ dataChannelOutput (run P [ChannelMessage 0 "hello"] callee_connected)
     = dataChannelOutput callee_connected
  /\ fst (sendMessage (set_dataChannelInput "hello" callee_connected))
     = Throw TypeError.
Proof.
  cbv zeta.
  split; [vm_compute; reflexivity|].
  split; [vm_compute; reflexivity|].
  split; [vm_compute; reflexivity|].
  split; [split; vm_compute; reflexivity|].
  split; vm_compute; reflexivity.
Qed.

(** After [hangUp] the handle is null and the send is a TypeError. *)
Example sendMessage_after_hangUp :
  fst (hangUp caller_connected) = Ok tt
  /\ fst (sendMessage (snd (hangUp caller_connected))) = Throw TypeError.
Proof. vm_compute. done. Qed.

(** ** C9 and C1: teardown *)

Lemma forEach_track_stop (l : list track) (s : State) :
  forEach l track_stop s =
    (Ok tt, set_ended (ended s ∪ list_to_set l)
              (set_trace (trace s ++ map TrackStop l) s)).
Proof.
  revert s. induction l as [|t l IH]; intros s.
  - destruct s; simpl. unfold ret, set_ended, set_trace; simpl.
    by rewrite app_nil_r, (right_id_L ∅ (∪)).
  - simpl. unfold mbind, M_bind, bind.
    unfold track_stop at 1. unfold mbind, M_bind, bind, emit_effect, modify.
    rewrite IH. destruct s; unfold set_ended, set_trace; simpl.
    rewrite <- app_assoc. simpl. by rewrite (assoc_L (∪)).
Qed.

(** The first thing [hangUp] does after its console message is to send
    'bye' with the room token; the rest of the function runs from the state
    this leaves. *)
Lemma hangUp_starts_with_bye (st : State) (sk : Socket) :
  socket st = Obj sk ->
  exists rest,
    effects_of hangUp st
    = ConsoleLog "bye Bye" :: Emit "bye" (PRoom (room st)) :: rest.
Proof.
  intros Hsk.
  set (st1 := set_trace (trace st ++ [ConsoleLog "bye Bye";
                                      Emit "bye" (PRoom (room st))]) st).
  assert (exists k : M unit, emits (fun _ => True) k /\ hangUp st = k st1)
    as (k & Hk & Hrun).
  { eexists (_ ≫= _). split; cycle 1.
    - destruct st; simpl in *; subst. unfold hangUp.
      unfold mbind at 1, M_bind at 1, bind at 1. unfold console_log at 1.
      unfold emit_effect at 1, modify at 1.
      unfold mbind at 1, M_bind at 1, bind at 1, get at 1.
      unfold mbind at 1, M_bind at 1, bind at 1. unfold socket_emit at 1.
      simpl. unfold st1, set_trace; simpl. rewrite <- app_assoc. simpl.
      reflexivity.
    - solve_emits; done. }
  destruct (Hk st1) as (l & El & _).
  exists l. unfold effects_of. rewrite Hrun, El. unfold st1; simpl.
  rewrite <- app_assoc. by rewrite drop_app_length.
Qed.

(** C9. When a 'bye' message arrives, the handler is [hangUp], and the first
    call [hangUp] makes after its console message is to send its own 'bye',
    carrying the room token, on the socket: every release (stopping tracks,
    detaching the video sinks, closing the connection and the channel) comes
    after it. *)
Theorem bye_is_rebroadcast (P : Platform) (st : State) (sk : Socket) :
  socket st = Obj sk ->
  "bye" ∈ handlers sk ->
  step P SockBye st = hangUp st
  /\ exists rest,
       effects_of (step P SockBye) st
       = ConsoleLog "bye Bye" :: Emit "bye" (PRoom (room st)) :: rest.
Proof.
  intros Hsk Hbye.
  assert (E : step P SockBye st = hangUp st).
  { unfold step, on_socket. unfold mbind at 1, M_bind at 1, bind at 1, get at 1.
    rewrite Hsk. by rewrite bool_decide_eq_true_2. }
  split; [exact E|].
  destruct (hangUp_starts_with_bye st sk Hsk) as (rest & Hrest).
  exists rest. unfold effects_of in *. by rewrite E.
Qed.

Lemma bye_is_rebroadcast_witness :
  socket caller_connected = Obj wired_socket
  /\ "bye" ∈ handlers wired_socket
  /\ exists rest,
       effects_of (step (browser (Some "X")) SockBye) caller_connected
       = ConsoleLog "bye Bye" :: Emit "bye" (PRoom (room caller_connected)) :: rest.
Proof.
  assert (H1 : socket caller_connected = Obj wired_socket) by reflexivity.
  assert (H2 : "bye" ∈ handlers wired_socket) by (apply (bool_decide_unpack _); vm_compute; exact I).
  split; [exact H1|]. split; [exact H2|].
  exact (proj2 (bye_is_rebroadcast (browser (Some "X")) caller_connected
                  wired_socket H1 H2)).
Defined.

(** What the Caller's teardown does, call by call. *)
Example hangUp_caller_connected :
  fst (hangUp caller_connected) = Ok tt
  /\ effects_of hangUp caller_connected
     = [ConsoleLog "bye Bye"; Emit "bye" (PRoom (Obj "X"));
        TrackStop 0; TrackStop 1; TrackStop 10; TrackStop 11;
        SetSrcObject "localVideo" None; SetSrcObject "remoteVideo" None;
        ClosePeerConnection; ChannelClose 0;
        SetValue "dataChannelOutput" ("*** Channel is closed ***" +:+ nl)].
Proof. vm_compute. done. Qed.

(** A [hangUp] that finds no stream on the local video sink stops there: it
    has sent 'bye' and released nothing. *)
Lemma hangUp_without_local_stream (st : State) (sk : Socket) :
  socket st = Obj sk ->
  localVideo st = None ->
  hangUp st =
    (Throw TypeError,
     set_trace (trace st ++ [ConsoleLog "bye Bye"; Emit "bye" (PRoom (room st))]) st).
Proof.
  intros Hsk Hlv. destruct st; simpl in *; subst. exec.
  unfold set_trace; simpl. by rewrite <- app_assoc.
Qed.

(** A [hangUp] that returns normally had a socket to send 'bye' on, and
    leaves both video sinks and both handles null; socket and room are as
    before. *)
Lemma hangUp_ok (st : State) :
  fst (hangUp st) = Ok tt ->
  let st1 := snd (hangUp st) in
  (exists sk, socket st1 = Obj sk)
  /\ room st1 = room st
  /\ localVideo st1 = None /\ remoteVideo st1 = None
  /\ peerConnection st1 = Null /\ dataChannel st1 = Null.
Proof.
  destruct st as [pc dc rm sk lv rv inp out chs en tr].
  unfold hangUp, console_log, socket_emit, stop_tracks, channel_close,
    set_localVideo_srcObject, set_remoteVideo_srcObject, append_output.
  unfold mbind, M_bind, bind, get, modify, emit_effect, deref, throw, mret,
    M_ret, ret; simpl.
  destruct sk as [| |sk]; simpl; try discriminate.
  destruct lv as [lv|]; simpl; try discriminate.
  rewrite forEach_track_stop; simpl.
  destruct rv as [rv|]; simpl; try discriminate.
  rewrite forEach_track_stop; simpl.
  destruct pc as [| |pc]; simpl; try discriminate.
  destruct dc as [| |dc]; simpl; try discriminate.
  intros _. repeat split. by exists sk.
Qed.

(** C1, as stated, fails on the connected Caller: the first [hangUp]
    returns, the second one throws a TypeError after sending 'bye' again, and
    so does the handler of a second incoming 'bye'. *)
Lemma hangUp_twice_throws :
  let st1 := snd (hangUp caller_connected) in
  fst (hangUp caller_connected) = Ok tt
  /\ hangUp st1 <> (Ok tt, st1)
  /\ fst (hangUp st1) = Throw TypeError
  /\ fst (step (browser (Some "X")) SockBye st1) = Throw TypeError
  /\ effects_of hangUp st1 = [ConsoleLog "bye Bye"; Emit "bye" (PRoom (Obj "X"))].
Proof.
  cbv zeta. split; [vm_compute; reflexivity|]. split.
  - intros H. apply (f_equal fst) in H. vm_compute in H. discriminate.
  - vm_compute. repeat split.
Qed.

(** C1, amended. After a [hangUp] that completed, a second [hangUp] is not a
    no-op: it sends 'bye' again and then throws a TypeError at the first
    release step, because the local video sink no longer holds a stream.  It
    releases nothing twice: stopped tracks, video sinks, negotiation handle
    and data-channel handle are as the first [hangUp] left them, also when
    the second teardown comes from an incoming 'bye'. *)
Theorem hangUp_again (st : State) :
  fst (hangUp st) = Ok tt ->
  let st1 := snd (hangUp st) in
  hangUp st1
    = (Throw TypeError,
       set_trace (trace st1 ++ [ConsoleLog "bye Bye"; Emit "bye" (PRoom (room st))]) st1)
  /\ resources (snd (hangUp st1)) = resources st1
  /\ forall P : Platform, resources (snd (step P SockBye st1)) = resources st1.
Proof.
  intros Hok. destruct (hangUp_ok st Hok) as ((sk & Hsk) & Hroom & Hlv & _).
  cbv zeta.
  pose proof (hangUp_without_local_stream _ sk Hsk Hlv) as E.
  rewrite Hroom in E. split; [exact E|]. split.
  - rewrite E. by destruct (snd (hangUp st)).
  - intros P. unfold step, on_socket.
    unfold mbind at 1, M_bind at 1, bind at 1, get at 1. rewrite Hsk.
    destruct (bool_decide _); [|reflexivity].
    rewrite E. by destruct (snd (hangUp st)).
Qed.

Lemma hangUp_again_witness :
  fst (hangUp caller_connected) = Ok tt
  /\ resources (snd (hangUp (snd (hangUp caller_connected))))
     = resources (snd (hangUp caller_connected)).
Proof.
  assert (H : fst (hangUp caller_connected) = Ok tt) by (vm_compute; reflexivity).
  split; [exact H|].
  exact (proj1 (proj2 (hangUp_again caller_connected H))).
Defined.

(** ** C2: remote candidates *)

(** C2, as stated, fails.  A candidate that arrives while there is no
    negotiation handle makes the handler throw; it is not applied then, and
    not after a later call has created the handle and the peer has joined.
    And a candidate that arrives when the handle exists but no role is
    assigned yet is applied at once, not after role assignment. *)
Lemma early_candidate_is_lost :
  let P := browser (Some "X") in
  let st1 := snd (step P (SockIceCandidate "candidate:1") call_without_media) in
  let st2 := run P [ClickCall; SockNewPeer "X"; SockOk "answer"] st1 in
  peerConnection call_without_media = Undefined
  /\ fst (step P (SockIceCandidate "candidate:1") call_without_media) = Throw TypeError
  /\ (exists pc, peerConnection st2 = Obj pc)
  /\ (AddIceCandidate "candidate:1" ∉ trace st2)
  /\ effects_of (step P (SockIceCandidate "candidate:2")) (run P [ClickCall] initial)
     = [ConsoleLog "Received remote ICE candidate: "; AddIceCandidate "candidate:2"].
Proof.
  cbv zeta. split; [vm_compute; reflexivity|].
  split; [vm_compute; reflexivity|].
  split; [eexists; vm_compute; reflexivity|].
  split; [|vm_compute; reflexivity].
  apply (bool_decide_unpack _). vm_compute. exact I.
Qed.

Lemma handle_remote_icecandidate_spec (c : candidate) (st : State) :
  handle_remote_icecandidate c st =
    match peerConnection st with
    | Obj _ =>
        (Ok tt,
         set_trace (trace st ++ [ConsoleLog "Received remote ICE candidate: ";
                                 AddIceCandidate c]) st)
    | _ =>
        (Throw TypeError,
         set_trace (trace st ++ [ConsoleLog "Received remote ICE candidate: "]) st)
    end.
Proof.
  destruct st as [pc dc rm sk lv rv inp out chs en tr]. exec.
  destruct pc; simpl; try reflexivity.
  unfold set_trace; simpl. by rewrite <- app_assoc.
Qed.

(** C2, amended. A remote candidate is passed to [addIceCandidate] exactly
    once, at the moment it arrives, when the negotiation handle exists,
    whether or not a role has been assigned.  When there is no handle the
    handler throws a TypeError and changes nothing but the console: the
    client keeps no queue, and no later event, whatever it is, applies that
    candidate. *)
Theorem remote_candidate_applied (c : candidate) :
  (forall st : State,
     handle_remote_icecandidate c st =
       match peerConnection st with
       | Obj _ =>
           (Ok tt,
            set_trace (trace st ++ [ConsoleLog "Received remote ICE candidate: ";
                                    AddIceCandidate c]) st)
       | _ =>
           (Throw TypeError,
            set_trace (trace st ++ [ConsoleLog "Received remote ICE candidate: "]) st)
       end)
  /\ (forall (P : Platform) (evs : list event) (st : State),
        SockIceCandidate c ∉ evs ->
        exists l, trace (run P evs st) = trace st ++ l /\ (AddIceCandidate c ∉ l)).
Proof.
  split; [apply handle_remote_icecandidate_spec|].
  intros P evs st Hevs.
  destruct (run_emits P (fun e => e <> AddIceCandidate c) evs st) as (l & El & Fl).
  - apply Forall_forall. intros ev Hev. apply step_emits_no_candidate.
    intros ->. by apply Hevs.
  - exists l. split; [exact El|].
    intros Hin. rewrite Forall_forall in Fl. by apply (Fl _ Hin).
Qed.

Lemma remote_candidate_applied_witness :
  (SockIceCandidate "candidate:1" ∉ [ClickCall; SockNewPeer "X"; SockOk "answer"])
  /\ exists l,
       trace (run (browser (Some "X")) [ClickCall; SockNewPeer "X"; SockOk "answer"]
                call_without_media)
       = trace call_without_media ++ l
       /\ (AddIceCandidate "candidate:1" ∉ l).
Proof.
  assert (H : SockIceCandidate "candidate:1"
              ∉ [ClickCall; SockNewPeer "X"; SockOk "answer"]).
  { intros Hin. repeat (apply elem_of_cons in Hin as [Hin|Hin]; [discriminate|]).
    by apply elem_of_nil in Hin. }
  split; [exact H|].
  exact (proj2 (remote_candidate_applied "candidate:1") (browser (Some "X"))
           [ClickCall; SockNewPeer "X"; SockOk "answer"] call_without_media H).
Defined.

(** ** C3: descriptions received out of turn *)

(** C3, as stated, fails.  A second offer received after the Caller sent its
    own is applied to the engine and answered; an answer received before any
    offer was sent is applied to the engine as well. *)
Lemma unexpected_description_is_applied :
  let P := browser (Some "X") in
  effects_of (step P (SockInvite "offer-2")) caller_offer_sent
    = [ConsoleLog "Received Invite offer from Caller: ";
       SetRemoteDescription "offer-2"; CreateAnswer;
       SetLocalDescription "answer"; Emit "ok" (PSdp "answer")]
  /\ effects_of (step P (SockOk "answer-0")) (run P [ClickCall] initial)
     = [ConsoleLog "Received OK answer from Callee: ";
        SetRemoteDescription "answer-0"].
Proof. cbv zeta. split; vm_compute; reflexivity. Qed.

(** C3, amended. Whenever a negotiation handle exists, an offer or an
    answer that arrives is passed to the engine's [setRemoteDescription],
    whatever was exchanged before: the client keeps no negotiation state,
    discards nothing and logs the message as received.  Only the engine can
    refuse it; the handler then ends with the engine's error.  In every case
    the module-level variables are left as they were. *)
Theorem description_always_applied
    (P : Platform) (st : State) (pc : RTCPeerConnection) (d : sdp) :
  peerConnection st = Obj pc ->
  let t := trace st ++ [ConsoleLog "Received Invite offer from Caller: ";
                        SetRemoteDescription d] in
  let t' := trace st ++ [ConsoleLog "Received OK answer from Callee: ";
                         SetRemoteDescription d] in
  (exists rest,
     effects_of (handle_invite P d) st
     = ConsoleLog "Received Invite offer from Caller: "
         :: SetRemoteDescription d :: rest)
  /\ (forall e, setRemoteDescription P t d = Throw e ->
                handle_invite P d st = (Throw e, set_trace t st))
  /\ handle_ok P d st = (setRemoteDescription P t' d, set_trace t' st)
  /\ globals (snd (handle_invite P d st)) = globals st
  /\ globals (snd (handle_ok P d st)) = globals st.
Proof.
  intros Hpc. cbv zeta.
  destruct st as [pc0 dc rm sk lv rv inp out chs en tr]. simpl in Hpc. subst pc0.
  assert (Hok : handle_ok P d {| peerConnection := Obj pc; dataChannel := dc;
                   room := rm; socket := sk; localVideo := lv; remoteVideo := rv;
                   dataChannelInput := inp; dataChannelOutput := out;
                   channels := chs; ended := en; trace := tr |}
                = (setRemoteDescription P
                     (tr ++ [ConsoleLog "Received OK answer from Callee: ";
                             SetRemoteDescription d]) d,
                   {| peerConnection := Obj pc; dataChannel := dc;
                      room := rm; socket := sk; localVideo := lv; remoteVideo := rv;
                      dataChannelInput := inp; dataChannelOutput := out;
                      channels := chs; ended := en;
                      trace := tr ++ [ConsoleLog "Received OK answer from Callee: ";
                                      SetRemoteDescription d] |})).
  { exec_trace. by destruct (setRemoteDescription P _ d) as [[]|]. }
  rewrite Hok. clear Hok.
  unfold effects_of, globals. exec_trace.
  destruct (setRemoteDescription P _ d) as [[]|e1] eqn:E1; exec_trace.
  - split.
    + destruct (createAnswer P _) as [a|e2]; exec_trace; [|eauto].
      destruct (setLocalDescription P _ a) as [[]|e3]; exec_trace; [|eauto].
      destruct sk; exec_trace; eauto.
    + split; [discriminate|]. split; [reflexivity|]. split; [|reflexivity].
      destruct (createAnswer P _) as [a|e2]; exec_trace; [|reflexivity].
      destruct (setLocalDescription P _ a) as [[]|e3]; exec_trace; [|reflexivity].
      destruct sk; reflexivity.
  - split; [eauto|]. split; [by intros e [= ->]|]. done.
Qed.

Lemma description_always_applied_witness :
  peerConnection caller_offer_sent
    = Obj {| senders := [0; 1]; onicecandidate := true;
             ontrack := true; ondatachannel := true |}
  /\ exists rest,
       effects_of (handle_invite (browser (Some "X")) "offer-2") caller_offer_sent
       = ConsoleLog "Received Invite offer from Caller: "
           :: SetRemoteDescription "offer-2" :: rest.
Proof.
  split; [reflexivity|].
  refine (proj1 (description_always_applied (browser (Some "X")) caller_offer_sent
                   _ "offer-2" _)).
  reflexivity.
Defined.

(** ** C6: the Caller path *)

(** [create_datachannel] on an existing connection: a fresh channel object,
    connecting, with both handlers set, now held by [dataChannel]. *)
Lemma create_datachannel_spec (pc : RTCPeerConnection) (st : State) :
  create_datachannel (Obj pc) st =
    (Ok tt,
     set_channels
       (<[fresh (dom (channels st)) :=
            {| label := "data channel"; readyState := Connecting;
               onopen := true; onmessage := true |}]> (channels st))
       (set_dataChannel (Obj (fresh (dom (channels st))))
          (set_trace (trace st ++ [ConsoleLog "Creating dataChannel. I am the Caller.";
                                   CreateDataChannel "data channel"]) st))).
Proof.
  destruct st as [pc0 dc rm sk lv rv inp out chs en tr].
  unfold create_datachannel. exec_light.
  rewrite !alter_insert_eq. rewrite <- app_assoc. reflexivity.
Qed.

Lemma create_datachannel_no_handle (r : ref RTCPeerConnection) (st : State) :
  (forall pc, r <> Obj pc) ->
  create_datachannel r st =
    (Throw TypeError,
     set_trace (trace st ++ [ConsoleLog "Creating dataChannel. I am the Caller."]) st).
Proof.
  intros Hr. destruct st as [pc0 dc rm sk lv rv inp out chs en tr].
  unfold create_datachannel, console_log.
  unfold mbind, M_bind, bind, get, modify, emit_effect.
  destruct r as [| |pc]; [reflexivity | reflexivity | by destruct (Hr pc)].
Qed.

(** [handle_new_peer] once the log line is written and the value of
    [peerConnection] is read. *)
Lemma handle_new_peer_unfold (P : Platform) (r : string) (st : State) :
  handle_new_peer P r st =
    ((create_datachannel (peerConnection st) ;;
      offer ← pc_await CreateOffer (createOffer P);
      pc_await (SetLocalDescription offer)
        (fun t => setLocalDescription P t offer) ;;
      socket_emit "invite" (PSdp offer))
       (set_trace
          (trace st ++ [ConsoleLog ("Peer has joined room: " +:+ r
                                      +:+ ". I am the Caller.")]) st)).
Proof. destruct st. reflexivity. Qed.

(** Whatever the state and the engine's answers, the calls [handle_new_peer]
    makes are an initial part of the Caller sequence. *)
Lemma handle_new_peer_prefix (P : Platform) (r : string) (st : State) :
  exists offer, effects_of (handle_new_peer P r) st `prefix_of` caller_steps r offer.
Proof.
  unfold effects_of. rewrite handle_new_peer_unfold.
  unfold mbind at 1, M_bind at 1, bind at 1.
  destruct st as [pc dc rm sk lv rv inp out chs en tr].
  cbn [peerConnection trace].
  destruct pc as [| |pc].
  1, 2: rewrite create_datachannel_no_handle by done;
    exists ""; exec_light; trace_norm; eexists; reflexivity.
  rewrite create_datachannel_spec. exec_light. trace_norm.
  destruct (createOffer P _) as [offer|e]; exec_light; trace_norm.
  2: { exists "". eexists; reflexivity. }
  exists offer.
  destruct (setLocalDescription P _ offer) as [[]|e]; exec_light; trace_norm.
  2: { eexists; reflexivity. }
  destruct sk; exec_light; trace_norm; eexists; reflexivity.
Qed.

(** C6. On a peer-joined event the Caller's calls come in one fixed order:
    the data channel is created on the engine, then the offer is requested,
    then it is applied as local description, then it is sent as 'invite'.
    Whatever the state and the engine's answers, what [handle_new_peer] does
    is an initial part of this sequence; when the session has its
    negotiation handle and its socket and the engine resolves the two
    promises, it is the whole sequence, and nothing else. *)
Theorem caller_steps_in_order :
  (forall (P : Platform) (st : State) (r : string),
     exists offer,
       effects_of (handle_new_peer P r) st `prefix_of` caller_steps r offer)
  /\ (forall (P : Platform) (st : State) (r : string)
             (pc : RTCPeerConnection) (sk : Socket) (offer : sdp),
        peerConnection st = Obj pc ->
        socket st = Obj sk ->
        createOffer P (trace st ++ caller_opening r) = Ok offer ->
        setLocalDescription P
          (trace st ++ caller_opening r ++ [SetLocalDescription offer]) offer
          = Ok tt ->
        fst (handle_new_peer P r st) = Ok tt
        /\ effects_of (handle_new_peer P r) st = caller_steps r offer
        /\ dataChannel (snd (handle_new_peer P r st))
           = Obj (fresh (dom (channels st)))).
Proof.
  split; [intros P st r; apply handle_new_peer_prefix|].
  intros P st r pc sk offer Hpc Hsk Hoffer Hlocal.
  assert (exists s', handle_new_peer P r st = (Ok tt, s')
                     /\ trace s' = trace st ++ caller_steps r offer
                     /\ dataChannel s' = Obj (fresh (dom (channels st))))
    as (s' & E & Htr & Hdc).
  { rewrite handle_new_peer_unfold.
    unfold mbind at 1, M_bind at 1, bind at 1.
    destruct st as [pc0 dc rm sk0 lv rv inp out chs en tr].
    cbn [peerConnection socket trace channels dataChannel] in *. subst pc0 sk0.
    unfold caller_opening in Hoffer, Hlocal. cbn [app] in Hlocal.
    rewrite create_datachannel_spec. exec_light. trace_norm.
    rewrite Hoffer. exec_light. trace_norm.
    rewrite Hlocal. exec_light. trace_norm.
    eexists. split; [reflexivity|]. split; reflexivity. }
  unfold effects_of. rewrite E. cbn [fst snd].
  rewrite Htr, drop_app_length. done.
Qed.

Lemma caller_steps_in_order_witness :
  let P := browser (Some "X") in
  let st := run P [ClickCall; SockCreated] initial in
  fst (handle_new_peer P "X" st) = Ok tt
  /\ effects_of (handle_new_peer P "X") st = caller_steps "X" "offer".
Proof.
  cbv zeta.
  destruct (proj2 caller_steps_in_order (browser (Some "X"))
              (run (browser (Some "X")) [ClickCall; SockCreated] initial) "X"
              {| senders := [0; 1]; onicecandidate := true;
                 ontrack := true; ondatachannel := true |}
              wired_socket "offer")
    as (H1 & H2 & _); try reflexivity.
  split; [exact H1 | exact H2].
Defined.

(** ** C5 and C8: starting a call *)

Lemma enable_camera_spec (P : Platform) (st : State) :
  enable_camera P st =
    match getUserMedia P (trace st ++ camera_attempt) with
    | Ok s =>
        (Ok (Obj s),
         set_localVideo (Some s)
           (set_trace (trace st ++ camera_attempt
                         ++ [ConsoleLog "Got MediaStream:";
                             SetSrcObject "localVideo" (Some s)]) st))
    | Throw _ =>
        match getDisplayMedia P (trace st ++ screen_attempt) with
        | Ok s =>
            (Ok (Obj s),
             set_localVideo (Some s)
               (set_trace (trace st ++ screen_attempt
                             ++ [SetSrcObject "localVideo" (Some s)]) st))
        | Throw err =>
            (Ok Undefined,
             set_localVideo None
               (set_trace (trace st ++ screen_attempt
                             ++ [ConsoleError ("Error: " +:+ error_to_string err);
                                 SetSrcObject "localVideo" None]) st))
        end
    end.
Proof.
  destruct st as [pc dc rm sk lv rv inp out chs en tr].
  unfold screen_attempt, camera_attempt. exec_trace.
  destruct (getUserMedia P _) as [s|e]; exec_trace; [reflexivity|].
  destruct (getDisplayMedia P _) as [s|e']; exec_trace; reflexivity.
Qed.

Lemma call_room_spec (P : Platform) (st : State) (sk : Socket) :
  socket st = Obj sk ->
  let r := ref_of_option (prompt P (trace st ++ [Prompt "Enter room name:"])) in
  call_room P st =
    (Ok tt,
     set_room r
       (set_trace (trace st ++ [Prompt "Enter room name:"] ++ join_request r) st)).
Proof.
  intros Hsk. cbv zeta.
  destruct st as [pc dc rm sk0 lv rv inp out chs en tr]. simpl in Hsk. subst sk0.
  unfold join_request, call_room. exec_light.
  destruct (ne_empty _); exec_light; trace_norm; reflexivity.
Qed.

(** [call] once its first log line is written. *)
Lemma call_unfold (P : Platform) (st : State) :
  call P st =
    ((localStream ← enable_camera P;
      sk ← create_signaling_connection;
      modify (set_socket (Obj sk)) ;;
      add_signaling_handlers ;;
      call_room P ;;
      pc ← create_peerconnection localStream;
      modify (set_peerConnection (Obj pc)) ;;
      add_peerconnection_handlers)
       (set_trace (trace st ++ [ConsoleLog "entry call..."]) st)).
Proof. destruct st. reflexivity. Qed.

Lemma socket_on_spec (ev : string) (st : State) (sk : Socket) :
  socket st = Obj sk ->
  socket_on ev st =
    (Ok tt, set_socket (Obj {| handlers := handlers sk ++ [ev] |})
              (set_trace (trace st ++ [SocketOn ev]) st)).
Proof. intros Hsk. destruct st. simpl in Hsk. subst. reflexivity. Qed.

(** Opening the socket and registering the eight handlers. *)
Lemma signaling_setup_spec (st : State) :
  (sk ← create_signaling_connection;
   modify (set_socket (Obj sk)) ;;
   add_signaling_handlers) st
  = (Ok tt, set_socket (Obj wired_socket)
              (set_trace (trace st ++ registrations) st)).
Proof.
  destruct st as [pc dc rm sk lv rv inp out chs en tr].
  unfold create_signaling_connection, add_signaling_handlers.
  unfold mbind, M_bind, bind, emit_effect, modify, mret, M_ret, ret.
  cbn [trace set_trace set_socket].
  repeat (erewrite socket_on_spec by reflexivity;
          cbn [trace set_trace set_socket peerConnection dataChannel room
               socket localVideo remoteVideo dataChannelInput
               dataChannelOutput channels ended handlers app]).
  rewrite <- !app_assoc. reflexivity.
Qed.

Lemma forEach_addTrack (l : list track) (s : State) :
  forEach l (fun t => emit_effect (AddTrack t)) s
  = (Ok tt, set_trace (trace s ++ map AddTrack l) s).
Proof.
  revert s. induction l as [|t l IH]; intros s.
  - destruct s. cbn [forEach map]. unfold ret, set_trace. cbn [trace].
    by rewrite app_nil_r.
  - cbn [forEach map]. unfold mbind, M_bind, bind. unfold emit_effect at 1, modify.
    rewrite IH. destruct s. unfold set_trace. cbn [trace].
    by rewrite <- app_assoc.
Qed.

(** [call] from the point where media acquisition has returned
    [localStream], on a state [st] reached by then. *)
Lemma call_after_media (P : Platform) (localStream : ref MediaStream) (st : State) :
  let t := trace st ++ registrations ++ [Prompt "Enter room name:"] in
  let r := ref_of_option (prompt P t) in
  let st1 := set_room r (set_socket (Obj wired_socket)
               (set_trace (t ++ join_request r ++ [NewPeerConnection]) st)) in
  (sk ← create_signaling_connection;
   modify (set_socket (Obj sk)) ;;
   add_signaling_handlers ;;
   call_room P ;;
   pc ← create_peerconnection localStream;
   modify (set_peerConnection (Obj pc)) ;;
   add_peerconnection_handlers) st
  = match localStream with
    | Obj s =>
        (Ok tt,
         set_peerConnection
           (Obj {| senders := getTracks s; onicecandidate := true;
                   ontrack := true; ondatachannel := true |})
           (set_trace (trace st1 ++ map AddTrack (getTracks s)) st1))
    | _ => (Throw TypeError, st1)
    end.
Proof.
  cbv zeta.
  transitivity
    (((sk ← create_signaling_connection;
       modify (set_socket (Obj sk)) ;;
       add_signaling_handlers) ≫= (fun _ =>
      call_room P ;;
      pc ← create_peerconnection localStream;
      modify (set_peerConnection (Obj pc)) ;;
      add_peerconnection_handlers)) st).
  { unfold mbind, M_bind, bind.
    destruct (create_signaling_connection st) as [[a|e] s']; [|reflexivity].
    destruct (modify (set_socket (Obj a)) s') as [[a'|e] s'']; reflexivity. }
  unfold mbind at 1, M_bind at 1, bind at 1.
  rewrite signaling_setup_spec.
  unfold mbind at 1, M_bind at 1, bind at 1.
  rewrite (call_room_spec P _ wired_socket) by (by destruct st).
  destruct st as [pc dc rm sk lv rv inp out chs en tr].
  unfold create_peerconnection, add_peerconnection_handlers.
  exec_light. trace_norm.
  destruct localStream as [| |s]; exec_light; trace_norm; try reflexivity.
  rewrite forEach_addTrack. exec_light. trace_norm.
  records. trace_norm. reflexivity.
Qed.

(** C5, as stated, fails.  With no camera and screen sharing refused, media
    acquisition returns normally, without a stream; [call] goes on, connects
    the socket, registers the handlers and joins the room the user typed. *)
Lemma media_failure_does_not_abort :
  let P := browser_no_media (Some "X") in
  fst (enable_camera P initial) = Ok Undefined
  /\ socket (snd (call P initial)) = Obj wired_socket
  /\ room (snd (call P initial)) = Obj "X"
  /\ effects_of (call P) initial
     = start_without_media (DOMException "NotAllowedError")
         ++ [ConsoleLog "Joining room: X"; Emit "join" (PRoom (Obj "X"));
             NewPeerConnection].
Proof. cbv zeta. repeat split; vm_compute; reflexivity. Qed.

(** C5, amended. Media acquisition asks for the camera first and asks for
    screen sharing only after the camera request was rejected.  When both are
    rejected it does not fail: it logs the two errors and returns no stream.
    [call] then still connects the socket, registers the handlers, prompts
    for the room and sends the join request for it; no negotiation handle is
    stored. *)
Theorem media_fallback (P : Platform) (st : State) :
  enable_camera P st =
    match getUserMedia P (trace st ++ camera_attempt) with
    | Ok s =>
        (Ok (Obj s),
         set_localVideo (Some s)
           (set_trace (trace st ++ camera_attempt
                         ++ [ConsoleLog "Got MediaStream:";
                             SetSrcObject "localVideo" (Some s)]) st))
    | Throw _ =>
        match getDisplayMedia P (trace st ++ screen_attempt) with
        | Ok s =>
            (Ok (Obj s),
             set_localVideo (Some s)
               (set_trace (trace st ++ screen_attempt
                             ++ [SetSrcObject "localVideo" (Some s)]) st))
        | Throw err =>
            (Ok Undefined,
             set_localVideo None
               (set_trace (trace st ++ screen_attempt
                             ++ [ConsoleError ("Error: " +:+ error_to_string err);
                                 SetSrcObject "localVideo" None]) st))
        end
    end
  /\ forall e1 e2 : js_error,
       getUserMedia P (trace st ++ [ConsoleLog "entry call..."] ++ camera_attempt)
         = Throw e1 ->
       getDisplayMedia P (trace st ++ [ConsoleLog "entry call..."] ++ screen_attempt)
         = Throw e2 ->
       let r := ref_of_option (prompt P (trace st ++ start_without_media e2)) in
       (exists rest,
          effects_of (call P) st
          = start_without_media e2 ++ join_request r ++ rest)
       /\ socket (snd (call P st)) = Obj wired_socket
       /\ room (snd (call P st)) = r
       /\ peerConnection (snd (call P st)) = peerConnection st.
Proof.
  split; [apply enable_camera_spec|].
  intros e1 e2 H1 H2. cbv zeta.
  assert (call P st =
            (Throw TypeError,
             set_room (ref_of_option (prompt P (trace st ++ start_without_media e2)))
               (set_socket (Obj wired_socket)
                  (set_localVideo None
                     (set_trace
                        (trace st ++ start_without_media e2
                           ++ join_request
                                (ref_of_option
                                   (prompt P (trace st ++ start_without_media e2)))
                           ++ [NewPeerConnection]) st))))) as E.
  { rewrite call_unfold. unfold mbind at 1, M_bind at 1, bind at 1.
    rewrite enable_camera_spec.
    destruct st as [pc dc rm sk lv rv inp out chs en tr].
    unfold start_without_media, screen_attempt, camera_attempt in *.
    cbn [trace set_trace app] in *. trace_norm.
    rewrite <- ?app_assoc in H1, H2. cbn [app] in H1, H2.
    rewrite H1, H2.
    rewrite call_after_media. records. trace_norm. reflexivity. }
  unfold effects_of. rewrite E. clear E H1 H2. destruct st. records. trace_norm.
  split; [eexists; reflexivity|]. repeat split.
Qed.

Lemma media_fallback_witness :
  let P := browser_no_media (Some "X") in
  socket (snd (call P initial)) = Obj wired_socket
  /\ room (snd (call P initial)) = Obj "X"
  /\ peerConnection (snd (call P initial)) = Undefined.
Proof.
  cbv zeta.
  destruct (proj2 (media_fallback (browser_no_media (Some "X")) initial)
              (DOMException "NotFoundError") (DOMException "NotAllowedError")
              eq_refl eq_refl) as (_ & H1 & H2 & H3).
  split; [exact H1|]. split; [exact H2 | exact H3].
Defined.

(** C8, as stated, fails.  When the user leaves the room name empty no join
    request is sent, but [call] does not fail: it returns normally, having
    created the peer connection and set its handlers. *)
Lemma empty_room_does_not_fail :
  let P := browser (Some "") in
  fst (call P initial) = Ok tt
  /\ peerConnection (snd (call P initial))
     = Obj {| senders := [0; 1]; onicecandidate := true;
              ontrack := true; ondatachannel := true |}
  /\ room (snd (call P initial)) = Obj ""
  /\ effects_of (call P) initial
     = start_with_camera camera ++ [NewPeerConnection; AddTrack 0; AddTrack 1].
Proof. cbv zeta. repeat split; vm_compute; reflexivity. Qed.

(** C8, amended. When the user types an empty room name no join request is
    sent, and [call] does not fail for that: it goes on to create the peer
    connection and returns normally.  For every non-empty name a 'join'
    request carrying that name is sent. *)
Theorem join_request_sent :
  (forall (P : Platform) (st : State) (sk : Socket),
     socket st = Obj sk ->
     let r := ref_of_option (prompt P (trace st ++ [Prompt "Enter room name:"])) in
     call_room P st =
       (Ok tt,
        set_room r
          (set_trace (trace st ++ [Prompt "Enter room name:"] ++ join_request r) st)))
  /\ join_request (Obj "") = []
  /\ (forall s : string,
        s <> "" ->
        join_request (Obj s)
        = [ConsoleLog ("Joining room: " +:+ s); Emit "join" (PRoom (Obj s))])
  /\ (forall (P : Platform) (st : State) (s : MediaStream),
        (forall t, getUserMedia P t = Ok s) ->
        (forall t, prompt P t = Some "") ->
        fst (call P st) = Ok tt
        /\ peerConnection (snd (call P st))
           = Obj {| senders := getTracks s; onicecandidate := true;
                    ontrack := true; ondatachannel := true |}
        /\ effects_of (call P) st
           = start_with_camera s ++ [NewPeerConnection] ++ map AddTrack (getTracks s)).
Proof.
  split; [exact call_room_spec|]. split; [reflexivity|]. split.
  - intros s Hs. unfold join_request, ne_empty.
    destruct (String.eqb_spec s ""); [done | reflexivity].
  - intros P st s Hmedia Hprompt.
    assert (call P st =
              (Ok tt,
               set_peerConnection
                 (Obj {| senders := getTracks s; onicecandidate := true;
                         ontrack := true; ondatachannel := true |})
                 (set_room (Obj "")
                    (set_socket (Obj wired_socket)
                       (set_localVideo (Some s)
                          (set_trace
                             (trace st ++ start_with_camera s
                                ++ [NewPeerConnection]
                                ++ map AddTrack (getTracks s)) st)))))) as E.
    { rewrite call_unfold. unfold mbind at 1, M_bind at 1, bind at 1.
      rewrite enable_camera_spec, Hmedia.
      rewrite call_after_media, !Hprompt.
      destruct st as [pc dc rm sk lv rv inp out chs en tr].
      unfold start_with_camera, ref_of_option.
      change (join_request (Obj "")) with (@nil effect).
      records. trace_norm. reflexivity. }
    unfold effects_of. rewrite E. destruct st. records. trace_norm.
    repeat split.
Qed.

Lemma join_request_sent_witness :
  let P := browser (Some "X") in
  let st := run P [ClickCall] initial in
  (socket st = Obj wired_socket
   /\ effects_of (call_room P) st
      = [Prompt "Enter room name:"; ConsoleLog "Joining room: X";
         Emit "join" (PRoom (Obj "X"))])
  /\ "X" <> ""
  /\ join_request (Obj "X")
     = [ConsoleLog ("Joining room: " +:+ "X"); Emit "join" (PRoom (Obj "X"))]
  /\ fst (call (browser (Some "")) initial) = Ok tt.
Proof.
  assert (H : "X" <> "") by discriminate.
  cbv zeta. split.
  { split; [reflexivity|]. unfold effects_of.
    rewrite (proj1 join_request_sent (browser (Some "X"))
               (run (browser (Some "X")) [ClickCall] initial) wired_socket eq_refl).
    vm_compute. reflexivity. }
  split; [exact H|]. split.
  - exact (proj1 (proj2 (proj2 join_request_sent)) "X" H).
  - exact (proj1 (proj2 (proj2 (proj2 join_request_sent))
                    (browser (Some "")) initial camera
                    (fun _ => eq_refl) (fun _ => eq_refl))).
Defined.

(** * The rest of the script *)

(** ** Which handler makes which call *)

Lemma step_allowed (P : Platform) (ev : event) :
  emits (fun e => allowed ev e = true) (step P ev).
Proof. destruct ev; solve_emits; reflexivity. Qed.

Lemma step_effects_allowed (P : Platform) (ev : event) (st : State) (e : effect) :
  e ∈ effects_of (step P ev) st -> allowed ev e = true.
Proof.
  intros Hin. destruct (step_allowed P ev st) as (l & El & Fl).
  unfold effects_of in Hin. rewrite El, drop_app_length in Hin.
  rewrite Forall_forall in Fl. by apply Fl.
Qed.

(** X1. Resources are released by [hangUp] only: a track is stopped, the
    peer connection closed or a data channel closed only while handling a
    click on Hang Up, the unloading of the window or an incoming 'bye'. *)
Theorem only_teardown_releases
    (P : Platform) (ev : event) (st : State) (e : effect) :
  e ∈ effects_of (step P ev) st ->
  (e = ClosePeerConnection \/ (exists ch, e = ChannelClose ch)
   \/ exists t, e = TrackStop t) ->
  ev = ClickHangUp \/ ev = BeforeUnload \/ ev = SockBye.
Proof.
  intros Hin He. apply step_effects_allowed in Hin.
  destruct He as [-> | [[ch ->] | [t ->]]]; destruct ev; simpl in Hin;
    try discriminate; auto.
Qed.

Lemma only_teardown_releases_witness :
  ClosePeerConnection ∈ effects_of (step (browser (Some "X")) SockBye) caller_connected
  /\ (SockBye = ClickHangUp \/ SockBye = BeforeUnload \/ SockBye = SockBye).
Proof.
  assert (H : ClosePeerConnection
              ∈ effects_of (step (browser (Some "X")) SockBye) caller_connected)
    by (apply (bool_decide_unpack _); vm_compute; exact I).
  split; [exact H|].
  exact (only_teardown_releases (browser (Some "X")) SockBye caller_connected
           ClosePeerConnection H (or_introl eq_refl)).
Defined.

(** X2. The two roles never mix: the data channel and the offer are created
    only while handling a peer-joined event, the answer only while handling
    an incoming offer. *)
Theorem negotiation_roles
    (P : Platform) (ev : event) (st : State) (e : effect) :
  e ∈ effects_of (step P ev) st ->
  ((e = CreateOffer \/ exists lbl, e = CreateDataChannel lbl) ->
   exists r, ev = SockNewPeer r)
  /\ (e = CreateAnswer -> exists offer, ev = SockInvite offer).
Proof.
  intros Hin. apply step_effects_allowed in Hin. split.
  - intros [-> | [lbl ->]]; destruct ev; simpl in Hin; try discriminate; eauto.
  - intros ->. destruct ev; simpl in Hin; try discriminate; eauto.
Qed.

Lemma negotiation_roles_witness :
  CreateAnswer ∈ effects_of (step (browser (Some "X")) (SockInvite "offer"))
                   (run (browser (Some "X")) [ClickCall; SockJoined] initial)
  /\ exists offer, SockInvite "offer" = SockInvite offer.
Proof.
  assert (H : CreateAnswer
              ∈ effects_of (step (browser (Some "X")) (SockInvite "offer"))
                  (run (browser (Some "X")) [ClickCall; SockJoined] initial))
    by (apply (bool_decide_unpack _); vm_compute; exact I).
  split; [exact H|].
  exact (proj2 (negotiation_roles (browser (Some "X")) (SockInvite "offer") _
                  CreateAnswer H) eq_refl).
Defined.

(** X3. The client sends five kinds of message and each from one place:
    'join' only from [call], 'invite' only on a peer-joined event, 'ok' only
    on an incoming offer, 'ice_candidate' only on a local candidate event,
    'bye' only from [hangUp]. *)
Theorem signaling_messages
    (P : Platform) (ev : event) (st : State) (name : string) (p : payload) :
  Emit name p ∈ effects_of (step P ev) st ->
  (name = "join" /\ ev = ClickCall)
  \/ (name = "invite" /\ exists r, ev = SockNewPeer r)
  \/ (name = "ok" /\ exists offer, ev = SockInvite offer)
  \/ (name = "ice_candidate" /\ exists c, ev = PcIceCandidate c)
  \/ (name = "bye" /\ (ev = ClickHangUp \/ ev = BeforeUnload \/ ev = SockBye)).
Proof.
  intros Hin. apply step_effects_allowed in Hin.
  destruct ev; simpl in Hin; try discriminate;
    apply String.eqb_eq in Hin; subst name; eauto 10.
Qed.

Lemma signaling_messages_witness :
  Emit "invite" (PSdp "offer")
    ∈ effects_of (step (browser (Some "X")) (SockNewPeer "X")) caller_waiting
  /\ exists r, SockNewPeer "X" = SockNewPeer r.
Proof.
  assert (H : Emit "invite" (PSdp "offer")
              ∈ effects_of (step (browser (Some "X")) (SockNewPeer "X")) caller_waiting)
    by (apply (bool_decide_unpack _); vm_compute; exact I).
  split; [exact H|].
  destruct (signaling_messages (browser (Some "X")) (SockNewPeer "X")
              caller_waiting "invite" (PSdp "offer") H)
    as [[E _] | [[_ Hr] | [[E _] | [[E _] | [E _]]]]];
    [discriminate E | exact Hr | discriminate E | discriminate E | discriminate E].
Defined.

(** ** Invariants of the event loop *)

Section Preserves.

Context (I : State -> Prop).

(** [I] does not look at the trace. *)
Hypothesis I_trace : forall s t, I s -> I (set_trace t s).

Lemma preserves_ret {A} (a : A) : preserves I (mret a).
Proof. by intros s H. Qed.

Lemma preserves_throw {A} (e : js_error) : preserves I (@throw A e).
Proof. by intros s H. Qed.

Lemma preserves_get {A} (f : State -> A) : preserves I (get f).
Proof. by intros s H. Qed.

Lemma preserves_modify (f : State -> State) :
  (forall s, I s -> I (f s)) -> preserves I (modify f).
Proof. intros Hf s H. by apply Hf. Qed.

Lemma preserves_emit_effect (e : effect) : preserves I (emit_effect e).
Proof. intros s H. by apply I_trace. Qed.

Lemma preserves_bind {A B} (m : M A) (k : A -> M B) :
  preserves I m -> (forall a, preserves I (k a)) -> preserves I (m ≫= k).
Proof.
  intros Hm Hk s H. unfold mbind, M_bind, bind.
  specialize (Hm s H). destruct (m s) as [[a|e] s1]; simpl in *.
  - by apply Hk.
  - exact Hm.
Qed.

Lemma preserves_try_catch {A} (m : M A) (h : js_error -> M A) :
  preserves I m -> (forall e, preserves I (h e)) -> preserves I (try_catch m h).
Proof.
  intros Hm Hh s H. unfold try_catch.
  specialize (Hm s H). destruct (m s) as [[a|e] s1]; simpl in *.
  - exact Hm.
  - by apply Hh.
Qed.

Lemma preserves_deref {A} (r : ref A) : preserves I (deref r).
Proof. by destruct r; intros s H. Qed.

Lemma preserves_forEach {A} (l : list A) (f : A -> M unit) :
  (forall x, preserves I (f x)) -> preserves I (forEach l f).
Proof.
  intros Hf. induction l as [|x l IH]; simpl.
  - apply preserves_ret.
  - apply preserves_bind; [apply Hf | intros _; apply IH].
Qed.

Lemma preserves_await {A} (c : effect) (answer : list effect -> outcome A) :
  preserves I (await c answer).
Proof.
  unfold await.
  apply preserves_bind; [apply preserves_emit_effect | intros _].
  apply preserves_bind; [apply preserves_get | intros t].
  destruct (answer t); [apply preserves_ret | apply preserves_throw].
Qed.

(** Over a run, an invariant of every step is an invariant of the run. *)
Lemma preserves_run (P : Platform) (evs : list event) (s : State) :
  Forall (fun ev => preserves I (step P ev)) evs -> I s -> I (run P evs s).
Proof.
  intros H. revert s. induction H as [|ev evs Hev _ IH]; intros s Hs; simpl.
  - exact Hs.
  - apply IH. by apply Hev.
Qed.

End Preserves.

(** Breaks a computation into its primitives; what is left to show is that
    each update of the state keeps the invariant. *)
Ltac preserves_step :=
  match goal with
  | H : preserves _ ?m |- preserves _ ?m => exact H
  | |- preserves _ (_ ≫= _) => apply preserves_bind
  | |- preserves _ (try_catch _ _) => apply preserves_try_catch
  | |- preserves _ (forEach _ _) => apply preserves_forEach
  | |- preserves _ (modify _) => apply preserves_modify
  | |- preserves _ (mret _) => apply preserves_ret
  | |- preserves _ (throw _) => apply preserves_throw
  | |- preserves _ (get _) => apply preserves_get
  | |- preserves _ (deref _) => apply preserves_deref
  | |- preserves _ (emit_effect _) => apply preserves_emit_effect
  | |- preserves _ (await _ _) => apply preserves_await
  | |- preserves _ (match ?x with _ => _ end) => destruct x eqn:?
  | |- forall _ : _, preserves _ _ => intro
  end.

Ltac solve_preserves := repeat (first [preserves_step | progress emits_unfold]).

Ltac unfold_handlers :=
  unfold step, on_socket, on_pc, on_channel, call, hangUp, sendMessage,
    enable_camera, create_signaling_connection, add_signaling_handlers,
    call_room, create_peerconnection, add_peerconnection_handlers,
    handle_datachannel_open, handle_datachannel_message, create_datachannel,
    handle_remote_datachannel, handle_new_peer, handle_invite, handle_ok,
    handle_local_icecandidate, handle_remote_icecandidate, handle_remote_track.

(** As [solve_preserves], with [tac] tried on each primitive before it is
    unfolded. *)
Ltac solve_preserves_with tac :=
  repeat (first [tac | preserves_step | progress unfold_handlers
                | progress emits_unfold]).

(** Closes the side conditions on updates that do not touch what the
    invariant reads. *)
Ltac frame_updates :=
  try (intros [] ?; cbn; assumption);
  try (intros [] ? ?; cbn; assumption).

Lemma append_assoc (a b c : string) : (a +:+ b) +:+ c = a +:+ (b +:+ c).
Proof.
  induction a as [|x a IH]; [done|].
  change (String x ((a +:+ b) +:+ c) = String x (a +:+ (b +:+ c))).
  by rewrite IH.
Qed.

Lemma append_output_extends (p v : string) :
  preserves (fun s => exists suf, dataChannelOutput s = p +:+ suf) (append_output v).
Proof.
  intros [pc dc rm sk lv rv inp out chs en tr] [suf H].
  cbn [dataChannelOutput] in H. subst out.
  exists (suf +:+ v). unfold append_output. exec_light. apply append_assoc.
Qed.

(** X5. The transcript is append-only: whatever events follow, the text of
    the output field after them starts with the text it had before. *)
Theorem transcript_append_only (P : Platform) (evs : list event) (st : State) :
  exists suf, dataChannelOutput (run P evs st) = dataChannelOutput st +:+ suf.
Proof.
  apply (preserves_run
           (fun s => exists suf, dataChannelOutput s = dataChannelOutput st +:+ suf)).
  - apply Forall_forall. intros ev _.
    destruct ev;
      solve_preserves_with
        ltac:(idtac;
              match goal with
              | |- preserves _ (append_output _) => apply append_output_extends
              end);
      frame_updates.
  - exists "". clear. induction (dataChannelOutput st) as [|x a IH]; [done|].
    change (String x a = String x (a +:+ "")). by rewrite <- IH.
Qed.

(** X6. Signaling and engine events leave the session's identity alone:
    except for a click on Call and the three teardown triggers, no event
    changes the room name, the socket, the negotiation handle or the stream
    on the local video sink. *)
Theorem session_frame (P : Platform) (ev : event) (st : State) :
  ev <> ClickCall ->
  is_teardown ev = false ->
  let st' := snd (step P ev st) in
  room st' = room st /\ socket st' = socket st
  /\ peerConnection st' = peerConnection st /\ localVideo st' = localVideo st.
Proof.
  intros Hcall Htear.
  assert (preserves
            (fun s => room s = room st /\ socket s = socket st
                      /\ peerConnection s = peerConnection st
                      /\ localVideo s = localVideo st) (step P ev)) as H.
  { destruct ev; try done; solve_preserves; frame_updates. }
  by apply H.
Qed.

Lemma session_frame_witness :
  let P := browser (Some "X") in
  SockNewPeer "X" <> ClickCall
  /\ is_teardown (SockNewPeer "X") = false
  /\ peerConnection (snd (step P (SockNewPeer "X") caller_waiting))
     = peerConnection caller_waiting.
Proof.
  assert (H1 : SockNewPeer "X" <> ClickCall) by discriminate.
  assert (H2 : is_teardown (SockNewPeer "X") = false) by reflexivity.
  cbv zeta. split; [exact H1|]. split; [exact H2|].
  exact (proj1 (proj2 (proj2 (session_frame (browser (Some "X")) (SockNewPeer "X")
                                caller_waiting H1 H2)))).
Defined.

(** X7. The data-channel handle is replaced in three places only: when a
    peer joins (the Caller creates the channel), when the engine announces
    the remote channel (its handler assigns [event.dataChannel]) and in
    [hangUp]. *)
Theorem data_channel_frame (P : Platform) (ev : event) (st : State) :
  (forall r, ev <> SockNewPeer r) ->
  (forall lbl rs, ev <> PcDataChannel lbl rs) ->
  is_teardown ev = false ->
  dataChannel (snd (step P ev st)) = dataChannel st.
Proof.
  intros Hpeer Hdc Htear.
  assert (preserves (fun s => dataChannel s = dataChannel st) (step P ev)) as H.
  { destruct ev; try done; try (by destruct (Hpeer r));
      try (by destruct (Hdc lbl rs)); solve_preserves; frame_updates. }
  by apply H.
Qed.

Lemma data_channel_frame_witness :
  let P := browser (Some "X") in
  is_teardown (SockOk "answer") = false
  /\ dataChannel (snd (step P (SockOk "answer") caller_offer_sent))
     = dataChannel caller_offer_sent.
Proof.
  cbv zeta. split; [reflexivity|].
  apply (data_channel_frame (browser (Some "X")) (SockOk "answer") caller_offer_sent).
  - discriminate.
  - discriminate.
  - reflexivity.
Defined.








Lemma wired_trace (s : State) (t : list effect) : wired s -> wired (set_trace t s).
Proof. by destruct s. Qed.

(** [call] either succeeds, with a wired socket and a peer connection that
    has its three handlers, or fails leaving a wired socket and the peer
    connection it found. *)
Lemma call_wired (P : Platform) : preserves wired (call P).
Proof.
  intros st [_ Hpc]. rewrite call_unfold.
  unfold mbind at 1, M_bind at 1, bind at 1. rewrite enable_camera_spec.
  destruct st as [pc dc rm sk lv rv inp out chs en tr]. cbn in Hpc.
  destruct (getUserMedia P _) as [s|e1];
    [|destruct (getDisplayMedia P _) as [s|e2]];
    rewrite call_after_media; records; split; auto.
  - intros pc' [= <-]. auto.
  - intros pc' [= <-]. auto.
  - intros pc' Hpc'. cbn in Hpc'. destruct (Hpc _ Hpc') as (_ & H). auto.
Qed.

Lemma step_wired (P : Platform) (ev : event) : preserves wired (step P ev).
Proof.
  destruct ev; [apply call_wired | ..];
    solve_preserves_with
      ltac:(idtac;
            match goal with
            | |- forall s t, wired s -> _ => apply wired_trace
            end);
    frame_updates.
  all: intros [] [Hsk _]; split; [exact Hsk | intros pc' Hpc'; discriminate Hpc'].
Qed.

Lemma initial_wired : wired initial.
Proof. split; [by left | intros pc Hpc; discriminate Hpc]. Qed.

(** X9. The page stays wired: from the page as loaded, after any sequence
    of events the socket, if there is one, has all eight signaling handlers,
    and whenever [peerConnection] holds a connection, that connection has its
    three handlers and the socket exists. *)
Theorem page_stays_wired (P : Platform) (evs : list event) :
  wired (run P evs initial).
Proof.
  apply preserves_run; [|apply initial_wired].
  apply Forall_forall. intros ev _. apply step_wired.
Qed.

(** X10. No local candidate event ever makes its handler throw: in every
    state the page can reach, the handler either is not installed or finds
    the socket it needs. *)
Theorem local_candidate_never_throws
    (P : Platform) (evs : list event) (c : option candidate) :
  fst (step P (PcIceCandidate c) (run P evs initial)) = Ok tt.
Proof.
  assert (wired (run P evs initial)) as [_ Hpc].
  { apply preserves_run; [|apply initial_wired].
    apply Forall_forall. intros ev _. apply step_wired. }
  destruct (run P evs initial) as [pc dc rm sk lv rv inp out chs en tr].
  cbn in Hpc. unfold step, on_pc. exec_light.
  destruct pc as [| |pc]; try reflexivity.
  destruct (Hpc pc eq_refl) as (-> & -> & _).
  destruct c; reflexivity.
Qed.

(** ** Teardown, step by step *)

Lemma bind_ok {A B} (m : M A) (k : A -> M B) (s s' : State) (a : A) :
  m s = (Ok a, s') -> (m ≫= k) s = k a s'.
Proof. intros H. unfold mbind, M_bind, bind. by rewrite H. Qed.

Lemma bind_throw {A B} (m : M A) (k : A -> M B) (s s' : State) (e : js_error) :
  m s = (Throw e, s') -> (m ≫= k) s = (Throw e, s').
Proof. intros H. unfold mbind, M_bind, bind. by rewrite H. Qed.

(** Runs one primitive of [hangUp] on an explicit state. *)
Ltac run_primitive :=
  unfold stop_tracks, channel_close, set_localVideo_srcObject,
    set_remoteVideo_srcObject, append_output;
  exec_light; rewrite ?forEach_track_stop; records; trace_norm.

(** Runs the first statement of a sequence, which returns or throws. *)
Ltac step_ok := erewrite bind_ok by (run_primitive; reflexivity); cbv beta.
Ltac step_throw := erewrite bind_throw by (run_primitive; reflexivity).

(** X11. On a session that has everything (socket, both streams, connection
    and channel) [hangUp] completes, and does exactly this: it sends 'bye',
    stops every track of the local then of the remote stream, detaches both
    video sinks, closes the connection and the channel and forgets both
    handles, and writes the closing line on the transcript. *)
Theorem hangUp_complete
    (st : State) (sk : Socket) (ls rs : MediaStream)
    (pc : RTCPeerConnection) (ch : channel_id) :
  socket st = Obj sk ->
  localVideo st = Some ls ->
  remoteVideo st = Some rs ->
  peerConnection st = Obj pc ->
  dataChannel st = Obj ch ->
  hangUp st =
    (Ok tt,
     set_dataChannelOutput
       (dataChannelOutput st +:+ "*** Channel is closed ***" +:+ nl)
       (set_dataChannel Null
          (set_channels (alter (with_readyState Closed) ch (channels st))
             (set_peerConnection Null
                (set_remoteVideo None
                   (set_localVideo None
                      (set_ended
                         (ended st ∪ list_to_set (getTracks ls)
                                   ∪ list_to_set (getTracks rs))
                         (set_trace
                            (trace st ++ teardown_steps (room st) ls rs ch
                                           (dataChannelOutput st)) st)))))))).
Proof.
  intros Hsk Hlv Hrv Hpc Hdc.
  destruct st as [pc0 dc rm sk0 lv rv inp out chs en tr]. cbn in *. subst.
  unfold teardown_steps, hangUp. repeat step_ok.
  run_primitive. repeat rewrite <- app_assoc. reflexivity.
Qed.

Lemma hangUp_complete_witness :
  fst (hangUp caller_connected) = Ok tt
  /\ dataChannelOutput (snd (hangUp caller_connected))
     = dataChannelOutput caller_connected +:+ "*** Channel is closed ***" +:+ nl.
Proof.
  rewrite (hangUp_complete caller_connected wired_socket camera remote_stream
             {| senders := [0; 1]; onicecandidate := true;
                ontrack := true; ondatachannel := true |} 0
             eq_refl eq_refl eq_refl eq_refl eq_refl).
  split; reflexivity.
Defined.

(** X12. [hangUp] returns normally exactly when the socket, a stream on each
    of the two video sinks, the connection and the channel all exist; in
    every other state it throws a TypeError. *)
Theorem hangUp_outcome (st : State) :
  fst (hangUp st) = if teardown_ready st then Ok tt else Throw TypeError.
Proof.
  destruct st as [pc dc rm sk lv rv inp out chs en tr].
  unfold teardown_ready. cbn [socket localVideo remoteVideo peerConnection dataChannel].
  destruct sk as [| |sk];
    try (unfold hangUp; repeat step_ok; step_throw; reflexivity).
  destruct lv as [ls|];
    [|unfold hangUp; repeat step_ok; step_throw; reflexivity].
  destruct rv as [rs|];
    [|unfold hangUp; repeat step_ok; step_throw; reflexivity].
  destruct pc as [| |pc];
    try (unfold hangUp; repeat step_ok; step_throw; reflexivity).
  destruct dc as [| |ch];
    try (unfold hangUp; repeat step_ok; step_throw; reflexivity).
  unfold hangUp. repeat step_ok. run_primitive. reflexivity.
Qed.

(** X13. A [hangUp] before any remote track arrived stops half way: 'bye' is
    sent and the local tracks are stopped, then it throws; the local video
    sink keeps its stream, and the connection and the channel are neither
    closed nor forgotten. *)
Theorem hangUp_without_remote_stream (st : State) (sk : Socket) (ls : MediaStream) :
  socket st = Obj sk ->
  localVideo st = Some ls ->
  remoteVideo st = None ->
  hangUp st =
    (Throw TypeError,
     set_ended (ended st ∪ list_to_set (getTracks ls))
       (set_trace
          (trace st ++ [ConsoleLog "bye Bye"; Emit "bye" (PRoom (room st))]
                    ++ map TrackStop (getTracks ls)) st)).
Proof.
  intros Hsk Hlv Hrv.
  destruct st as [pc0 dc rm sk0 lv rv inp out chs en tr]. cbn in *. subst.
  unfold hangUp. repeat step_ok. step_throw. reflexivity.
Qed.

Lemma hangUp_without_remote_stream_witness :
  remoteVideo caller_waiting = None
  /\ fst (hangUp caller_waiting) = Throw TypeError
  /\ localVideo (snd (hangUp caller_waiting)) = Some camera
  /\ peerConnection (snd (hangUp caller_waiting)) = peerConnection caller_waiting.
Proof.
  split; [reflexivity|].
  rewrite (hangUp_without_remote_stream caller_waiting wired_socket camera
             eq_refl eq_refl eq_refl).
  repeat split.
Defined.

(** X14. A [hangUp] on a session that has both streams and the connection
    but no data channel releases the streams and the connection, then
    throws: the closing line is not written on the transcript. *)
Theorem hangUp_without_channel
    (st : State) (sk : Socket) (ls rs : MediaStream) (pc : RTCPeerConnection) :
  socket st = Obj sk ->
  localVideo st = Some ls ->
  remoteVideo st = Some rs ->
  peerConnection st = Obj pc ->
  (forall ch, dataChannel st <> Obj ch) ->
  hangUp st =
    (Throw TypeError,
     set_peerConnection Null
       (set_remoteVideo None
          (set_localVideo None
             (set_ended
                (ended st ∪ list_to_set (getTracks ls) ∪ list_to_set (getTracks rs))
                (set_trace
                   (trace st ++ [ConsoleLog "bye Bye"; Emit "bye" (PRoom (room st))]
                      ++ map TrackStop (getTracks ls)
                      ++ map TrackStop (getTracks rs)
                      ++ [SetSrcObject "localVideo" None;
                          SetSrcObject "remoteVideo" None;
                          ClosePeerConnection]) st))))).
Proof.
  intros Hsk Hlv Hrv Hpc Hdc.
  destruct st as [pc0 dc rm sk0 lv rv inp out chs en tr]. cbn in *. subst.
  destruct dc as [| |ch]; [| |by destruct (Hdc ch)];
    unfold hangUp; repeat step_ok; step_throw;
    repeat rewrite <- app_assoc; reflexivity.
Qed.

Lemma hangUp_without_channel_witness :
  dataChannel callee_without_channel = Undefined
  /\ fst (hangUp callee_without_channel) = Throw TypeError
  /\ peerConnection (snd (hangUp callee_without_channel)) = Null
  /\ dataChannelOutput (snd (hangUp callee_without_channel))
     = dataChannelOutput callee_without_channel.
Proof.
  split; [reflexivity|].
  rewrite (hangUp_without_channel callee_without_channel wired_socket camera
             remote_stream
             {| senders := [0; 1]; onicecandidate := true;
                ontrack := true; ondatachannel := true |}
             eq_refl eq_refl eq_refl eq_refl (fun ch H => eq_ind Undefined
               (fun r => match r with Undefined => True | _ => False end) I _ H)).
  repeat split.
Defined.

(** ** The Callee path *)

Lemma handle_invite_prefix (P : Platform) (offer : sdp) (st : State) :
  exists answer,
    effects_of (handle_invite P offer) st `prefix_of` callee_steps offer answer.
Proof.
  destruct st as [pc dc rm sk lv rv inp out chs en tr].
  unfold effects_of, callee_steps, handle_invite. exec_light. trace_norm.
  destruct pc as [| |pc]; exec_light; trace_norm;
    try (exists ""; eexists; reflexivity).
  destruct (setRemoteDescription P _ offer) as [[]|e]; exec_light; trace_norm;
    [|exists ""; eexists; reflexivity].
  destruct (createAnswer P _) as [answer|e]; exec_light; trace_norm;
    [|exists ""; eexists; reflexivity].
  exists answer.
  destruct (setLocalDescription P _ answer) as [[]|e]; exec_light; trace_norm;
    [|eexists; reflexivity].
  destruct sk; exec_light; trace_norm; eexists; reflexivity.
Qed.

(** X15. On an incoming offer the Callee's calls come in one fixed order:
    the offer is applied as remote description, then the answer is requested,
    then it is applied as local description, then it is sent as 'ok'.  In
    every state what [handle_invite] does is an initial part of this
    sequence; with a negotiation handle, a socket and an engine that resolves
    the three promises it is the whole of it, and the Callee creates no data
    channel: the handle and the stored channels are untouched. *)
Theorem callee_steps_in_order :
  (forall (P : Platform) (st : State) (offer : sdp),
     exists answer,
       effects_of (handle_invite P offer) st `prefix_of` callee_steps offer answer)
  /\ (forall (P : Platform) (st : State) (offer answer : sdp)
             (pc : RTCPeerConnection) (sk : Socket),
        peerConnection st = Obj pc ->
        socket st = Obj sk ->
        setRemoteDescription P (trace st ++ take 2 (callee_steps offer answer)) offer
          = Ok tt ->
        createAnswer P (trace st ++ take 3 (callee_steps offer answer)) = Ok answer ->
        setLocalDescription P (trace st ++ take 4 (callee_steps offer answer)) answer
          = Ok tt ->
        handle_invite P offer st
          = (Ok tt, set_trace (trace st ++ callee_steps offer answer) st)).
Proof.
  split; [intros P st offer; apply handle_invite_prefix|].
  intros P st offer answer pc sk Hpc Hsk Hremote Hanswer Hlocal.
  destruct st as [pc0 dc rm sk0 lv rv inp out chs en tr].
  cbn in Hpc, Hsk, Hremote, Hanswer, Hlocal. subst pc0 sk0.
  unfold handle_invite, callee_steps.
  erewrite bind_ok by (exec_light; reflexivity). cbv beta.
  erewrite bind_ok
    by (exec_light; trace_norm; rewrite Hremote; exec_light; reflexivity).
  cbv beta.
  erewrite bind_ok
    by (exec_light; trace_norm; rewrite Hanswer; exec_light; reflexivity).
  cbv beta.
  erewrite bind_ok
    by (exec_light; trace_norm; rewrite Hlocal; exec_light; reflexivity).
  cbv beta.
  exec_light. records. trace_norm. reflexivity.
Qed.

Lemma callee_steps_in_order_witness :
  let P := browser (Some "X") in
  let st := run P [ClickCall; SockJoined] initial in
  handle_invite P "offer" st
  = (Ok tt, set_trace (trace st ++ callee_steps "offer" "answer") st).
Proof.
  cbv zeta.
  exact (proj2 callee_steps_in_order (browser (Some "X"))
           (run (browser (Some "X")) [ClickCall; SockJoined] initial)
           "offer" "answer"
           {| senders := [0; 1]; onicecandidate := true;
              ontrack := true; ondatachannel := true |}
           wired_socket eq_refl eq_refl eq_refl eq_refl eq_refl).
Defined.

(** ** Starting a call, whatever the media *)

(** [call] is media acquisition followed by the set-up of the socket and of
    the connection. *)
Lemma call_spec (P : Platform) (st : State) :
  call P st =
    match enable_camera P (set_trace (trace st ++ [ConsoleLog "entry call..."]) st) with
    | (Ok localStream, se) =>
        let t := trace se ++ registrations ++ [Prompt "Enter room name:"] in
        let r := ref_of_option (prompt P t) in
        let st1 := set_room r (set_socket (Obj wired_socket)
                     (set_trace (t ++ join_request r ++ [NewPeerConnection]) se)) in
        match localStream with
        | Obj s =>
            (Ok tt,
             set_peerConnection
               (Obj {| senders := getTracks s; onicecandidate := true;
                       ontrack := true; ondatachannel := true |})
               (set_trace (trace st1 ++ map AddTrack (getTracks s)) st1))
        | _ => (Throw TypeError, st1)
        end
    | (Throw e, se) => (Throw e, se)
    end.
Proof.
  rewrite call_unfold. unfold mbind at 1, M_bind at 1, bind at 1.
  destruct (enable_camera P _) as [[ls|e] se]; [|reflexivity].
  apply call_after_media.
Qed.

(** X16. [call] succeeds exactly when media acquisition returned a stream,
    from the camera or from the screen.  Then the page holds a wired socket
    and a new peer connection with its three handlers, to which every track
    of that stream was added, in order, and the local video sink shows the
    stream.  Without a stream [call] throws a TypeError and stores no
    connection.  Either way a data-channel handle and a remote stream left
    by an earlier call are not touched. *)
Theorem call_outcome (P : Platform) (st : State) :
  let st0 := set_trace (trace st ++ [ConsoleLog "entry call..."]) st in
  match fst (enable_camera P st0) with
  | Ok (Obj s) =>
      fst (call P st) = Ok tt
      /\ peerConnection (snd (call P st))
         = Obj {| senders := getTracks s; onicecandidate := true;
                  ontrack := true; ondatachannel := true |}
      /\ socket (snd (call P st)) = Obj wired_socket
      /\ localVideo (snd (call P st)) = Some s
      /\ (NewPeerConnection :: map AddTrack (getTracks s))
           `suffix_of` effects_of (call P) st
  | _ =>
      fst (call P st) = Throw TypeError
      /\ peerConnection (snd (call P st)) = peerConnection st
  end
  /\ dataChannel (snd (call P st)) = dataChannel st
  /\ remoteVideo (snd (call P st)) = remoteVideo st.
Proof.
  cbv zeta. unfold effects_of. rewrite call_spec, enable_camera_spec.
  destruct st as [pc dc rm sk lv rv inp out chs en tr].
  destruct (getUserMedia P _) as [s|e1];
    [|destruct (getDisplayMedia P _) as [s|e2]];
    records; trace_norm; repeat split;
    repeat (first [reflexivity | apply suffix_cons_r | apply suffix_app_r]).
Qed.

(** With no camera but a shared screen, the call is set up on the screen's
    track. *)
Example call_on_shared_screen :
  fst (call (browser_screen_only (Some "X")) initial) = Ok tt
  /\ peerConnection (snd (call (browser_screen_only (Some "X")) initial))
     = Obj {| senders := [2]; onicecandidate := true;
              ontrack := true; ondatachannel := true |}.
Proof. split; vm_compute; reflexivity. Qed.

(** ** The data channel once it exists *)

(** X17. When the channel held by [dataChannel] opens, the page sends the
    ready marker on it, once, and from then on the channel is the open
    channel that [sendMessage] uses. *)
Theorem ready_marker_on_open
    (P : Platform) (st : State) (ch : channel_id) (c : RTCDataChannel) :
  dataChannel st = Obj ch ->
  channels st !! ch = Some c ->
  onopen c = true ->
  step P (ChannelOpened ch) st
    = (Ok tt,
       set_trace (trace st ++ [ChannelSend ch "*** Channel is ready ***"])
         (set_channels (alter (with_readyState Open) ch (channels st)) st))
  /\ open_channel (snd (step P (ChannelOpened ch) st)) = Some ch.
Proof.
  intros Hdc Hc Hopen.
  destruct st as [pc dc rm sk lv rv inp out chs en tr]. cbn in Hdc, Hc. subst dc.
  assert (E : alter (with_readyState Open) ch chs !! ch
              = Some (with_readyState Open c))
    by (by rewrite lookup_alter_eq, Hc).
  assert (step P (ChannelOpened ch)
            {| peerConnection := pc; dataChannel := Obj ch; room := rm;
               socket := sk; localVideo := lv; remoteVideo := rv;
               dataChannelInput := inp; dataChannelOutput := out;
               channels := chs; ended := en; trace := tr |}
          = (Ok tt,
             {| peerConnection := pc; dataChannel := Obj ch; room := rm;
                socket := sk; localVideo := lv; remoteVideo := rv;
                dataChannelInput := inp; dataChannelOutput := out;
                channels := alter (with_readyState Open) ch chs; ended := en;
                trace := tr ++ [ChannelSend ch "*** Channel is ready ***"] |}))
    as Hstep.
  { unfold step, on_channel, handle_datachannel_open, channel_send.
    exec_light. rewrite E. cbn [onopen with_readyState]. rewrite Hopen.
    exec_light. rewrite E. reflexivity. }
  rewrite Hstep. split; [reflexivity|].
  unfold open_channel. cbn [snd dataChannel channels]. by rewrite E.
Qed.

Lemma ready_marker_on_open_witness :
  let P := browser (Some "X") in
  dataChannel caller_offer_sent = Obj 0
  /\ open_channel caller_offer_sent = None
  /\ open_channel (snd (step P (ChannelOpened 0) caller_offer_sent)) = Some 0.
Proof.
  cbv zeta. split; [reflexivity|]. split; [reflexivity|].
  exact (proj2 (ready_marker_on_open (browser (Some "X")) caller_offer_sent 0
                  {| label := "data channel"; readyState := Connecting;
                     onopen := true; onmessage := true |}
                  eq_refl eq_refl eq_refl)).
Defined.

Lemma append_nil_r (a : string) : a +:+ "" = a.
Proof.
  induction a as [|x a IH]; [done|].
  change (String x (a +:+ "") = String x a). by rewrite IH.
Qed.

Lemma step_channel_message
    (P : Platform) (st : State) (ch : channel_id) (c : RTCDataChannel)
    (data : string) :
  channels st !! ch = Some c ->
  onmessage c = true ->
  step P (ChannelMessage ch data) st
    = (Ok tt,
       set_dataChannelOutput (dataChannelOutput st +:+ "PEER: " +:+ data +:+ nl)
         (set_trace
            (trace st ++ [SetValue "dataChannelOutput"
                            (dataChannelOutput st +:+ "PEER: " +:+ data +:+ nl)])
            st)).
Proof.
  intros Hc Hmsg. destruct st as [pc dc rm sk lv rv inp out chs en tr].
  cbn in Hc. unfold step, on_channel, handle_datachannel_message, append_output.
  exec_light. rewrite Hc, Hmsg. exec_light. reflexivity.
Qed.

(** X18. Messages from the peer reach the transcript in the order they
    arrive, one line each, without reordering or deduplication: after the
    messages [msgs] on a channel with its message handler, the transcript is
    what it was followed by their lines, in order. *)
Theorem messages_in_arrival_order
    (P : Platform) (ch : channel_id) (c : RTCDataChannel) (msgs : list string)
    (st : State) :
  channels st !! ch = Some c ->
  onmessage c = true ->
  dataChannelOutput (run P (map (ChannelMessage ch) msgs) st)
  = dataChannelOutput st +:+ transcript_of msgs.
Proof.
  intros Hc Hmsg. revert st Hc.
  induction msgs as [|data msgs IH]; intros st Hc.
  - cbn [map run transcript_of]. by rewrite append_nil_r.
  - cbn [map run transcript_of].
    rewrite (step_channel_message P st ch c data Hc Hmsg).
    rewrite IH by (by destruct st).
    destruct st. cbn [snd dataChannelOutput set_dataChannelOutput].
    by rewrite append_assoc.
Qed.

Lemma messages_in_arrival_order_witness :
  dataChannelOutput
    (run (browser (Some "X"))
       (map (ChannelMessage 0) ["hello"; "hello"; "bye"]) caller_connected)
  = dataChannelOutput caller_connected
      +:+ transcript_of ["hello"; "hello"; "bye"].
Proof.
  exact (messages_in_arrival_order (browser (Some "X")) 0
           {| label := "data channel"; readyState := Open;
              onopen := true; onmessage := true |}
           ["hello"; "hello"; "bye"] caller_connected eq_refl eq_refl).
Defined.
